(** * SPMEV.js: the session globals and the asynchronous audio pipeline

    A shallow embedding of [src/SPMEV.js].  The module-level [let] variables
    become the record [Globals]; the browser objects the script talks to
    (pending [fetch] promises, pending [getUserMedia] promises, the
    [MediaRecorder] objects, the WaveSurfer instances, object URLs) live in
    [World]; every call into an external collaborator (toast, console, DOM,
    network, recorder, player) is recorded as an [effect].

    Handlers are computations in a small state/exception/writer monad [M], so
    [try]/[catch]/[finally] read as in the source.  An [async] handler is cut
    at its [await]: the part before it runs when the DOM event fires, the part
    after it runs when the event loop delivers [FetchSettled] for its request.
    The two awaits of a handler ([fetch] and [response.json()]) touch no
    variable in between and are delivered as one [fetch_outcome].

    Modelled: every function the script declares, the statements that run
    when it is loaded, and one frame of the visualizer's [draw].  Of
    [startTour] only the start of the tour is recorded.  [handleDragOver]
    and [handleDrop] are declared nowhere in the script; what they do when a
    page provides them is not part of it.
    The toast, console, chart, tour and player libraries are taken to
    return normally (for [Toastify.init], see [Page]), the page to have the
    elements of lines 27-37 that the handlers write to, and the body of a
    successful response to have a string [emotion]; its [probabilities] may
    be missing. *)

From Stdlib Require Import QArith.
From Stdlib Require Import String Ascii.
From Stdlib Require Import Lqa.
From stdpp Require Import base option list gmap strings.

Local Open Scope string_scope.
Local Open Scope list_scope.
Local Open Scope nat_scope.

(** ** Data *)

(** A [File] as the handlers use it: [file.name] and [file.type]. *)
Record FileObj := { name : string; type : string }.

(** The [Blob] a [MediaRecorder] hands to [ondataavailable]; the handler only
    forwards it, so a chunk number stands for its bytes. *)
Record Blob := { chunk_no : nat }.

(** What is appended to the form data under the key ['audio']. *)
Inductive Payload :=
| UploadFile (file : FileObj)
| CaptureChunk (blob : Blob).

(** The JSON body of a successful response, [{ emotion, probabilities }].
    Nothing checks the body: [probs] is [None] when [data.probabilities] is
    [undefined] or [null]. *)
Record Classification := {
  emotion : string;
  probs : option (list (string * Q))
}.

(** An entry of [emotionHistory]: [{ time: new Date(), emotion }]. *)
Record HistoryEntry := { time : nat; entry_emotion : string }.

(** The module-level variables, lines 10-24.  [volume] holds what
    [parseFloat] returned, [None] for [NaN].  [highScores] is used by no
    function and is left out; reading it is a statement of the load. *)
Record Globals := {
  detectedEmotion : option string;
  probabilities : option (list (string * Q));
  isLoading : bool;
  error : option string;
  audioData : option nat;          (* an object URL, by number *)
  fileName : string;
  isPlaying : bool;
  volume : option Q;
  isMuted : bool;
  emotionHistory : list HistoryEntry;
  isRealTimeMode : bool;
  wavesurfer : option nat;         (* reference to a WaveSurfer instance *)
  mediaRecorder : option nat       (* reference to a MediaRecorder *)
}.

Definition initial_globals : Globals := {|
  detectedEmotion := None; probabilities := None; isLoading := false;
  error := None; audioData := None; fileName := ""; isPlaying := false;
  volume := Some 1%Q; isMuted := false; emotionHistory := []; isRealTimeMode := false;
  wavesurfer := None; mediaRecorder := None |}.

Definition set_detectedEmotion v (s : Globals) : Globals :=
  {| detectedEmotion := v; probabilities := probabilities s;
     isLoading := isLoading s; error := error s; audioData := audioData s;
     fileName := fileName s; isPlaying := isPlaying s;
     volume := volume s; isMuted := isMuted s;
     emotionHistory := emotionHistory s; isRealTimeMode := isRealTimeMode s;
     wavesurfer := wavesurfer s; mediaRecorder := mediaRecorder s |}.

Definition set_probabilities v (s : Globals) : Globals :=
  {| detectedEmotion := detectedEmotion s; probabilities := v;
     isLoading := isLoading s; error := error s; audioData := audioData s;
     fileName := fileName s; isPlaying := isPlaying s;
     volume := volume s; isMuted := isMuted s;
     emotionHistory := emotionHistory s; isRealTimeMode := isRealTimeMode s;
     wavesurfer := wavesurfer s; mediaRecorder := mediaRecorder s |}.

Definition set_isLoading v (s : Globals) : Globals :=
  {| detectedEmotion := detectedEmotion s; probabilities := probabilities s;
     isLoading := v; error := error s; audioData := audioData s;
     fileName := fileName s; isPlaying := isPlaying s;
     volume := volume s; isMuted := isMuted s;
     emotionHistory := emotionHistory s; isRealTimeMode := isRealTimeMode s;
     wavesurfer := wavesurfer s; mediaRecorder := mediaRecorder s |}.

Definition set_error v (s : Globals) : Globals :=
  {| detectedEmotion := detectedEmotion s; probabilities := probabilities s;
     isLoading := isLoading s; error := v; audioData := audioData s;
     fileName := fileName s; isPlaying := isPlaying s;
     volume := volume s; isMuted := isMuted s;
     emotionHistory := emotionHistory s; isRealTimeMode := isRealTimeMode s;
     wavesurfer := wavesurfer s; mediaRecorder := mediaRecorder s |}.

Definition set_audioData v (s : Globals) : Globals :=
  {| detectedEmotion := detectedEmotion s; probabilities := probabilities s;
     isLoading := isLoading s; error := error s; audioData := v;
     fileName := fileName s; isPlaying := isPlaying s;
     volume := volume s; isMuted := isMuted s;
     emotionHistory := emotionHistory s; isRealTimeMode := isRealTimeMode s;
     wavesurfer := wavesurfer s; mediaRecorder := mediaRecorder s |}.

Definition set_fileName v (s : Globals) : Globals :=
  {| detectedEmotion := detectedEmotion s; probabilities := probabilities s;
     isLoading := isLoading s; error := error s; audioData := audioData s;
     fileName := v; isPlaying := isPlaying s;
     volume := volume s; isMuted := isMuted s;
     emotionHistory := emotionHistory s; isRealTimeMode := isRealTimeMode s;
     wavesurfer := wavesurfer s; mediaRecorder := mediaRecorder s |}.

Definition set_isMuted v (s : Globals) : Globals :=
  {| detectedEmotion := detectedEmotion s; probabilities := probabilities s;
     isLoading := isLoading s; error := error s; audioData := audioData s;
     fileName := fileName s; isPlaying := isPlaying s;
     volume := volume s; isMuted := v;
     emotionHistory := emotionHistory s; isRealTimeMode := isRealTimeMode s;
     wavesurfer := wavesurfer s; mediaRecorder := mediaRecorder s |}.

Definition set_emotionHistory v (s : Globals) : Globals :=
  {| detectedEmotion := detectedEmotion s; probabilities := probabilities s;
     isLoading := isLoading s; error := error s; audioData := audioData s;
     fileName := fileName s; isPlaying := isPlaying s;
     volume := volume s; isMuted := isMuted s;
     emotionHistory := v; isRealTimeMode := isRealTimeMode s;
     wavesurfer := wavesurfer s; mediaRecorder := mediaRecorder s |}.

Definition set_isRealTimeMode v (s : Globals) : Globals :=
  {| detectedEmotion := detectedEmotion s; probabilities := probabilities s;
     isLoading := isLoading s; error := error s; audioData := audioData s;
     fileName := fileName s; isPlaying := isPlaying s;
     volume := volume s; isMuted := isMuted s;
     emotionHistory := emotionHistory s; isRealTimeMode := v;
     wavesurfer := wavesurfer s; mediaRecorder := mediaRecorder s |}.

Definition set_wavesurfer v (s : Globals) : Globals :=
  {| detectedEmotion := detectedEmotion s; probabilities := probabilities s;
     isLoading := isLoading s; error := error s; audioData := audioData s;
     fileName := fileName s; isPlaying := isPlaying s;
     volume := volume s; isMuted := isMuted s;
     emotionHistory := emotionHistory s; isRealTimeMode := isRealTimeMode s;
     wavesurfer := v; mediaRecorder := mediaRecorder s |}.

Definition set_mediaRecorder v (s : Globals) : Globals :=
  {| detectedEmotion := detectedEmotion s; probabilities := probabilities s;
     isLoading := isLoading s; error := error s; audioData := audioData s;
     fileName := fileName s; isPlaying := isPlaying s;
     volume := volume s; isMuted := isMuted s;
     emotionHistory := emotionHistory s; isRealTimeMode := isRealTimeMode s;
     wavesurfer := wavesurfer s; mediaRecorder := v |}.

Definition set_isPlaying v (s : Globals) : Globals :=
  {| detectedEmotion := detectedEmotion s; probabilities := probabilities s;
     isLoading := isLoading s; error := error s; audioData := audioData s;
     fileName := fileName s; isPlaying := v;
     volume := volume s; isMuted := isMuted s;
     emotionHistory := emotionHistory s; isRealTimeMode := isRealTimeMode s;
     wavesurfer := wavesurfer s; mediaRecorder := mediaRecorder s |}.

Definition set_volume v (s : Globals) : Globals :=
  {| detectedEmotion := detectedEmotion s; probabilities := probabilities s;
     isLoading := isLoading s; error := error s; audioData := audioData s;
     fileName := fileName s; isPlaying := isPlaying s;
     volume := v; isMuted := isMuted s;
     emotionHistory := emotionHistory s; isRealTimeMode := isRealTimeMode s;
     wavesurfer := wavesurfer s; mediaRecorder := mediaRecorder s |}.

(** ** The browser side *)

(** [globals]: the script's variables.  [pending]: the classification requests
    in flight, keyed by the order in which [fetch] was called (the issue
    sequence number), each with the payload its suspended handler closed over.
    [nextSeq]: the number the next [fetch] gets.  [micRequests]: unsettled
    [getUserMedia] promises.  [recorders]: every [MediaRecorder] created so
    far, by reference, with [true] while its state is ['recording'].
    [nextPlayer], [nextUrl]: counters for fresh WaveSurfer instances and
    object URLs. *)
Record World := {
  globals : Globals;
  pending : gmap nat Payload;
  nextSeq : nat;
  micRequests : nat;
  recorders : list bool;
  nextPlayer : nat;
  nextUrl : nat
}.

Definition initial_world : World := {|
  globals := initial_globals; pending := ∅; nextSeq := 1; micRequests := 0;
  recorders := []; nextPlayer := 0; nextUrl := 0 |}.

Definition with_globals v (w : World) : World :=
  {| globals := v; pending := pending w; nextSeq := nextSeq w;
     micRequests := micRequests w; recorders := recorders w;
     nextPlayer := nextPlayer w; nextUrl := nextUrl w |}.

Definition with_pending v (w : World) : World :=
  {| globals := globals w; pending := v; nextSeq := nextSeq w;
     micRequests := micRequests w; recorders := recorders w;
     nextPlayer := nextPlayer w; nextUrl := nextUrl w |}.

Definition with_nextSeq v (w : World) : World :=
  {| globals := globals w; pending := pending w; nextSeq := v;
     micRequests := micRequests w; recorders := recorders w;
     nextPlayer := nextPlayer w; nextUrl := nextUrl w |}.

Definition with_micRequests v (w : World) : World :=
  {| globals := globals w; pending := pending w; nextSeq := nextSeq w;
     micRequests := v; recorders := recorders w;
     nextPlayer := nextPlayer w; nextUrl := nextUrl w |}.

Definition with_recorders v (w : World) : World :=
  {| globals := globals w; pending := pending w; nextSeq := nextSeq w;
     micRequests := micRequests w; recorders := v;
     nextPlayer := nextPlayer w; nextUrl := nextUrl w |}.

Definition with_nextPlayer v (w : World) : World :=
  {| globals := globals w; pending := pending w; nextSeq := nextSeq w;
     micRequests := micRequests w; recorders := recorders w;
     nextPlayer := v; nextUrl := nextUrl w |}.

Definition with_nextUrl v (w : World) : World :=
  {| globals := globals w; pending := pending w; nextSeq := nextSeq w;
     micRequests := micRequests w; recorders := recorders w;
     nextPlayer := nextPlayer w; nextUrl := v |}.

Inductive Button := MuteButton | RealTimeButton.

(** The calls [togglePlayPause] makes. *)
Inductive playback_call :=
| PlayPause (h : nat)                  (* wavesurfer.playPause() *)
| PlayPauseLabel (txt : string).       (* playPauseButton.textContent *)

(** The calls [shareResults] makes. *)
Inductive share_call :=
| NavigatorShare (title text url : string)
| WindowOpen (url target : string)
| ToastWarn (msg : string).

(** A registered listener: the target, the event type, the handler. *)
Record Listener := {
  listens_on : string;
  listens_for : string;
  handler_name : string
}.

(** Calls into the collaborators, in the order they are made. *)
Inductive effect :=
| ToastError (msg : string)
| ToastSuccess (msg : string)
| ConsoleError (label msg : string)
| Fetch (seq : nat) (body : Payload)      (* POST /api/analyze-emotion *)
| GetUserMedia
| RecorderStart (r timeslice : nat)
| RecorderStop (r : nat)
| LoadingDisplay (shown : bool)           (* loadingIndicator.style.display *)
| ErrorText (txt : string)                (* errorDisplay.textContent *)
| ButtonText (b : Button) (txt : string)
| PlayerDestroy (h : nat)
| PlayerLoad (h : nat) (url : option nat)
| PlayerSetMute (h : nat) (muted : bool)
| VisualizerInit (h : nat)
| DisplayResults (shown : string) (p : list (string * Q))
                 (history : list HistoryEntry)
| Playback (c : playback_call)
| PlayerSetVolume (h : nat) (v : option Q)
| Share (c : share_call)
| TourStart                               (* tour.start() of Shepherd *)
| ListenerAdded (l : Listener)            (* addEventListener in init *)
| Uncaught (msg : string).                (* an exception left a handler *)

(** ** The handler monad *)

(** The message of a thrown [Error]. *)
Definition exn := string.

Definition M (A : Type) : Type := World → (exn + A) * World * list effect.

Definition ret {A} (a : A) : M A := λ w, (inr a, w, []).

Definition throw {A} (x : exn) : M A := λ w, (inl x, w, []).

Definition bind {A B} (m : M A) (k : A → M B) : M B := λ w,
  match m w with
  | (inl x, w1, e1) => (inl x, w1, e1)
  | (inr a, w1, e1) =>
      match k a w1 with (r, w2, e2) => (r, w2, e1 ++ e2) end
  end.

#[global] Instance M_ret : MRet M := @ret.
#[global] Instance M_bind : MBind M := λ A B k m, bind m k.

(** [try { body } catch (err) { handler err }] *)
Definition try_catch {A} (body : M A) (handler : exn → M A) : M A := λ w,
  match body w with
  | (inl x, w1, e1) =>
      match handler x w1 with (r, w2, e2) => (r, w2, e1 ++ e2) end
  | done => done
  end.

(** [try { body } finally { fin }]: [fin] runs either way; what [body] threw
    is thrown again unless [fin] throws itself. *)
Definition try_finally {A} (body : M A) (fin : M unit) : M A := λ w,
  match body w with
  | (r, w1, e1) =>
      match fin w1 with
      | (inl x, w2, e2) => (inl x, w2, e1 ++ e2)
      | (inr _, w2, e2) => (r, w2, e1 ++ e2)
      end
  end.

Definition emit (e : effect) : M unit := λ w, (inr (), w, [e]).

Definition read : M Globals := λ w, (inr (globals w), w, []).

Definition assign (f : Globals → Globals) : M unit :=
  λ w, (inr (), with_globals (f (globals w)) w, []).

Definition outcome {A} (r : (exn + A) * World * list effect) : exn + A := r.1.1.
Definition world_of {A} (r : (exn + A) * World * list effect) : World := r.1.2.
Definition effects_of {A} (r : (exn + A) * World * list effect) : list effect := r.2.

(** ** Browser primitives *)

(** [fetch('/api/analyze-emotion', { method: 'POST', body })]: the request
    gets the next sequence number and stays in [pending] until it settles. *)
Definition fetch (body : Payload) : M nat := λ w,
  let seq := nextSeq w in
  (inr seq,
   with_nextSeq (S seq) (with_pending (<[seq := body]> (pending w)) w),
   [Fetch seq body]).

(** [navigator.mediaDevices.getUserMedia({ audio: true })] *)
Definition getUserMedia : M unit := λ w,
  (inr (), with_micRequests (S (micRequests w)) w, [GetUserMedia]).

(** [new MediaRecorder(stream)]: a new object, state ['inactive']. *)
Definition newMediaRecorder : M nat := λ w,
  (inr (length (recorders w)), with_recorders (recorders w ++ [false]) w, []).

(** [recorder.start(timeslice)] *)
Definition recorder_start (r timeslice : nat) : M unit := λ w,
  (inr (), with_recorders (<[r := true]> (recorders w)) w,
   [RecorderStart r timeslice]).

(** [recorder.stop()]: the recorder becomes (or stays) ['inactive']. *)
Definition recorder_stop (r : nat) : M unit := λ w,
  (inr (), with_recorders (<[r := false]> (recorders w)) w, [RecorderStop r]).

(** [WaveSurfer.create({...})] *)
Definition createPlayer : M nat := λ w,
  (inr (nextPlayer w), with_nextPlayer (S (nextPlayer w)) w, []).

(** [URL.createObjectURL(file)] *)
Definition createObjectURL (file : FileObj) : M nat := λ w,
  (inr (nextUrl w), with_nextUrl (S (nextUrl w)) w, []).

Definition toast_error (msg : string) : M unit := emit (ToastError msg).
Definition toast_success (msg : string) : M unit := emit (ToastSuccess msg).
Definition console_error (label msg : string) : M unit :=
  emit (ConsoleError label msg).

(** JavaScript truthiness of a variable holding [null] or a string. *)
Definition truthy (v : option string) : bool :=
  match v with
  | Some s => negb (String.eqb s "")
  | None => false
  end.

(** How a classification request settles: [fetch] rejects, or a response
    arrives with its [ok] flag and with what [response.json()] gives, a parse
    failure ([inl], the message) or the body ([inr]). *)
Inductive fetch_outcome :=
| Rejected (msg : string)
| Responded (ok : bool) (body : string + Classification).

(** Lines 74-83 and 297-306, from the settled request on:
    [const response = await fetch(...);
     if (!response.ok) throw new Error('Failed to analyze audio');
     const data = await response.json();] *)
Definition await_response (o : fetch_outcome) : M Classification :=
  match o with
  | Rejected msg => throw msg
  | Responded ok body =>
      if negb ok then throw "Failed to analyze audio"
      else match body with
           | inl msg => throw msg
           | inr data => ret data
           end
  end.

(** ** The handlers *)

(** [initWavesurfer], lines 114-134. *)
Definition initWavesurfer : M unit :=
  s ← read;
  match wavesurfer s with
  | Some old => emit (PlayerDestroy old)
  | None => ret ()
  end;;
  h ← createPlayer;
  assign (set_wavesurfer (Some h));;
  s ← read;
  emit (PlayerLoad h (audioData s)).

(** [initVisualizer], lines 137-179: builds an analyser on
    [wavesurfer.media] and starts the drawing loop, which touches no
    variable. *)
Definition initVisualizer : M unit :=
  s ← read;
  match wavesurfer s with
  | Some h => emit (VisualizerInit h)
  | None => throw "Cannot read properties of null (reading 'media')"
  end.

(** [displayResults], lines 182-233.  [Object.keys(probabilities)] throws a
    [TypeError] on [null]. *)
Definition displayResults : M unit :=
  s ← read;
  match probabilities s with
  | None => throw "Cannot convert undefined or null to object"
  | Some p =>
      emit (DisplayResults (default "null" (detectedEmotion s)) p
                           (emotionHistory s))
  end.

(** [updateUI], lines 99-111. *)
Definition updateUI : M unit :=
  s ← read;
  emit (LoadingDisplay (isLoading s));;
  emit (ErrorText (default "" (error s)));;
  match audioData s with
  | Some _ => initWavesurfer;; initVisualizer
  | None => ret ()
  end;;
  s ← read;
  if truthy (detectedEmotion s) then displayResults else ret ().

(** [updateEmotionHistory], lines 317-319; [now] is what [new Date()]
    reads. *)
Definition updateEmotionHistory (now : nat) (emo : string) : M unit :=
  assign (λ s, set_emotionHistory
                 (emotionHistory s ++ [{| time := now; entry_emotion := emo |}])
                 s).

(** The event [handleFileUpload] receives: a drop carries [dataTransfer],
    a change of the file input does not. *)
Record UploadEvent := {
  dataTransfer : option (list FileObj);
  target_files : list FileObj
}.

(** Lines 51-56: the [file] variable, [undefined] when the list is empty. *)
Definition chosen_file (event : UploadEvent) : option FileObj :=
  match dataTransfer event with
  | Some files => head files
  | None => head (target_files event)
  end.

(** Line 60: [file.type.startsWith('audio/')]. *)
Definition is_audio (file : FileObj) : bool :=
  String.prefix "audio/" (type file).

(** [handleFileUpload], lines 50-77: up to the [await]. *)
Definition handleFileUpload (event : UploadEvent) : M unit :=
  match chosen_file event with
  | None => ret ()
  | Some file =>
      if negb (is_audio file) then
        toast_error "Please upload an audio file"
      else
        assign (set_fileName (name file));;
        assign (set_isLoading true);;
        assign (set_error None);;
        updateUI;;
        _ ← fetch (UploadFile file);
        ret ()
  end.

(** [handleFileUpload], lines 73-95: from the [await] on.  [file] is the
    variable the suspended call closed over. *)
Definition handleFileUpload_resume
    (file : FileObj) (o : fetch_outcome) (now : nat) : M unit :=
  try_finally
    (try_catch
       (data ← await_response o;
        assign (set_detectedEmotion (Some (emotion data)));;
        assign (set_probabilities (probs data));;
        url ← createObjectURL file;
        assign (set_audioData (Some url));;
        updateEmotionHistory now (emotion data);;
        toast_success "Audio analysis complete")
       (λ err,
        assign (set_error (Some err));;
        toast_error err))
    (assign (set_isLoading false);;
     updateUI).

(** [toggleMute], lines 251-257. *)
Definition toggleMute : M unit :=
  assign (λ s, set_isMuted (negb (isMuted s)) s);;
  s ← read;
  match wavesurfer s with
  | Some h => emit (PlayerSetMute h (isMuted s))
  | None => ret ()
  end;;
  emit (ButtonText MuteButton (if isMuted s then "Unmute" else "Mute")).

(** [startRealTimeDetection], lines 268-271: up to the promise. *)
Definition startRealTimeDetection : M unit :=
  assign (set_isRealTimeMode true);;
  emit (ButtonText RealTimeButton "Stop Real-Time Detection");;
  getUserMedia.

(** The [.then] callback, lines 272-276. *)
Definition onStream : M unit :=
  r ← newMediaRecorder;
  assign (set_mediaRecorder (Some r));;
  recorder_start r 1000.

(** The [.catch] callback, lines 277-280. *)
Definition onStreamError (err : exn) : M unit :=
  console_error "Error accessing microphone:" err;;
  toast_error "Unable to access microphone".

(** [stopRealTimeDetection], lines 283-289. *)
Definition stopRealTimeDetection : M unit :=
  assign (set_isRealTimeMode false);;
  emit (ButtonText RealTimeButton "Start Real-Time Detection");;
  s ← read;
  match mediaRecorder s with
  | Some r => recorder_stop r
  | None => ret ()
  end.

(** [toggleRealTimeMode], lines 260-266. *)
Definition toggleRealTimeMode : M unit :=
  s ← read;
  if isRealTimeMode s then stopRealTimeDetection else startRealTimeDetection.

(** [handleRealTimeAudioData], lines 291-300: up to the [await]. *)
Definition handleRealTimeAudioData (blob : Blob) : M unit :=
  _ ← fetch (CaptureChunk blob);
  ret ().

(** [handleRealTimeAudioData], lines 296-313: from the [await] on. *)
Definition handleRealTimeAudioData_resume
    (o : fetch_outcome) (now : nat) : M unit :=
  try_catch
    (data ← await_response o;
     assign (set_detectedEmotion (Some (emotion data)));;
     assign (set_probabilities (probs data));;
     updateEmotionHistory now (emotion data);;
     updateUI)
    (λ err, console_error "Error in real-time analysis:" err).

(** ** Playback: play and pause *)

(** [togglePlayPause], lines 236-242. *)
Definition togglePlayPause (s : Globals) : Globals * list playback_call :=
  match wavesurfer s with
  | Some h =>
      let s1 := set_isPlaying (negb (isPlaying s)) s in
      (s1, [PlayPause h; PlayPauseLabel (if isPlaying s1 then "Pause" else "Play")])
  | None => (s, [])
  end.

(** The callbacks [initWavesurfer] registers on the player, lines 132-133. *)
Definition on_play (s : Globals) : Globals := set_isPlaying true s.
Definition on_pause (s : Globals) : Globals := set_isPlaying false s.

(** [togglePlayPause] as the event loop runs it. *)
Definition togglePlayPause_handler : M unit := λ w,
  let r := togglePlayPause (globals w) in
  (inr (), with_globals r.1 w, map Playback r.2).

(** [handleVolumeChange], lines 244-249; [parsed] is what [parseFloat] makes
    of the slider's value, [None] for [NaN]. *)
Definition handleVolumeChange (parsed : option Q) : M unit :=
  assign (set_volume parsed);;
  s ← read;
  match wavesurfer s with
  | Some h => emit (PlayerSetVolume h (volume s))
  | None => ret ()
  end.

(** ** Sharing *)

(** Strings are held as the bytes of their UTF-8 encoding.  A JavaScript
    string may also hold a surrogate that is not part of a pair (a JSON
    body can deliver one, written as an escape); such a code unit is held as
    the three bytes [ED A0..BF 80..BF] of its generalised encoding, which no
    other character produces. *)
Definition starts_surrogate (c d : ascii) : bool :=
  (nat_of_ascii c =? 237) && (160 <=? nat_of_ascii d)
  && (nat_of_ascii d <=? 191).

Fixpoint has_lone_surrogate (s : string) : bool :=
  match s with
  | EmptyString => false
  | String c rest =>
      match rest with
      | String d _ => starts_surrogate c d || has_lone_surrogate rest
      | EmptyString => false
      end
  end.

(** What [encodeURIComponent] does to the bytes: letters, digits and
    [- _ . ! ~ * ' ( )] stay, every other byte becomes [%XX] with upper-case
    hexadecimal digits. *)
Definition unreserved (c : ascii) : bool :=
  let n := nat_of_ascii c in
  (65 <=? n) && (n <=? 90) || (97 <=? n) && (n <=? 122)
  || (48 <=? n) && (n <=? 57)
  || existsb (Nat.eqb n) [45; 95; 46; 33; 126; 42; 39; 40; 41].

Definition hex_digit (n : nat) : ascii :=
  if n <? 10 then ascii_of_nat (48 + n) else ascii_of_nat (55 + n).

Fixpoint percent_encode (s : string) : string :=
  match s with
  | EmptyString => EmptyString
  | String c rest =>
      if unreserved c then String c (percent_encode rest)
      else
        let n := nat_of_ascii c in
        String "%" (String (hex_digit (n / 16)) (String (hex_digit (n mod 16))
          (percent_encode rest)))
  end.

(** The built-in [encodeURIComponent]: a [URIError] when the string holds a
    lone surrogate, the escaped string otherwise. *)
Definition encodeURIComponent (s : string) : exn + string :=
  if has_lone_surrogate s then inl "URI malformed"
  else inr (percent_encode s).

(** Line 323: the text that is shared. *)
Definition share_text (emo : string) : string :=
  "I just analyzed my speech emotion! The detected emotion is: "
  +:+ emo +:+ ". Try it yourself!".

(** [shareResults], lines 321-341: the exception that leaves it, if any, and
    the calls it has made.  [href] is [window.location.href]; [canShare]
    tells whether [navigator.share] exists.  The outcome of the share
    promise is only logged.  In line 336 the text is escaped before the
    address, and [window.open] is called after both. *)
Definition shareResults (s : Globals) (href : string) (canShare : bool)
    : option exn * list share_call :=
  if truthy (detectedEmotion s) then
    let shareText := share_text (default "null" (detectedEmotion s)) in
    let shareUrl := href in
    if canShare then
      (None, [NavigatorShare "My Speech Emotion Analysis" shareText shareUrl])
    else
      match encodeURIComponent shareText with
      | inl x => (Some x, [])
      | inr text =>
          match encodeURIComponent shareUrl with
          | inl x => (Some x, [])
          | inr url =>
              (None,
               [WindowOpen ("https://twitter.com/intent/tweet?text="
                            +:+ text +:+ "&url=" +:+ url) "_blank"])
          end
      end
  else
    (None, [ToastWarn "Analyze an audio file first to share results"]).

(** [shareResults] as the event loop runs it. *)
Definition shareResults_handler (href : string) (canShare : bool) : M unit :=
  λ w,
  match shareResults (globals w) href canShare with
  | (None, calls) => (inr (), w, map Share calls)
  | (Some x, calls) => (inl x, w, map Share calls)
  end.

(** Characters that would end or split a query field. *)
Definition query_delimiter (c : ascii) : bool :=
  existsb (Ascii.eqb c) ["&"; "="; "?"; "#"; " "; "+"]%char.

(** ** The tour *)

(** [startTour], lines 344-383: a Shepherd tour is built from constants and
    [fileInput], and started. *)
Definition startTour : M unit := emit TourStart.

(** ** Loading the script *)

(** What the script finds in the page it is loaded into: the ids of the
    elements, whether an element of class [drop-zone] exists, the functions
    other scripts have put on the global object, whether the stored
    [highScores] item is absent or parses as JSON, and whether the
    [Toastify] the bundle imports has a method [init] that returns. *)
Record Page := {
  element_ids : list string;
  has_drop_zone : bool;
  page_functions : list string;
  highScores_readable : bool;
  toastify_inits : bool
}.

(** The functions the script declares. *)
Definition declared_functions : list string :=
  [ "handleFileUpload"; "updateUI"; "initWavesurfer"; "initVisualizer";
    "displayResults"; "togglePlayPause"; "handleVolumeChange"; "toggleMute";
    "toggleRealTimeMode"; "startRealTimeDetection"; "stopRealTimeDetection";
    "handleRealTimeAudioData"; "updateEmotionHistory"; "shareResults";
    "startTour"; "init" ].

Definition mem (x : string) (l : list string) : bool :=
  existsb (String.eqb x) l.

(** A statement of the script: from the listeners registered so far to the
    exception it throws, if any, and the listeners registered after it. *)
Definition statement : Type := list Listener → option exn * list Listener.

(** Statements run in order until one throws. *)
Fixpoint in_order (stmts : list statement) : statement :=
  match stmts with
  | [] => λ ls, (None, ls)
  | s :: rest => λ ls,
      match s ls with
      | (None, ls1) => in_order rest ls1
      | (Some x, ls1) => (Some x, ls1)
      end
  end.

(** [target.addEventListener(type, handler)]: [target] is [null] when the
    page has no such element, and [handler] must name a function. *)
Definition addEventListener (page : Page) (present : bool)
    (target type handler : string) : statement := λ ls,
  if negb present then
    (Some "TypeError: Cannot read properties of null (reading 'addEventListener')",
     ls)
  else if negb (mem handler declared_functions || mem handler (page_functions page))
  then (Some ("ReferenceError: " +:+ handler +:+ " is not defined"), ls)
  else
    (None, ls ++ [{| listens_on := target; listens_for := type;
                     handler_name := handler |}]).

Definition on_element (page : Page) (id type handler : string) : statement :=
  addEventListener page (mem id (element_ids page)) id type handler.

Definition on_document (page : Page) (type handler : string) : statement :=
  addEventListener page true "document" type handler.

(** Line 21: [JSON.parse(localStorage.getItem('highScores')) || []]. *)
Definition read_highScores (page : Page) : statement := λ ls,
  if highScores_readable page then (None, ls)
  else (Some "SyntaxError: Unexpected token in JSON", ls).

(** The statements of the script that run when it is loaded: line 21,
    lines 40-47 and line 401. *)
Definition load_script (page : Page) : statement :=
  in_order
    [ read_highScores page;
      on_element page "fileInput" "change" "handleFileUpload";
      on_document page "dragover" "handleDragOver";
      on_document page "drop" "handleDrop";
      on_element page "playPauseButton" "click" "togglePlayPause";
      on_element page "volumeSlider" "input" "handleVolumeChange";
      on_element page "muteButton" "click" "toggleMute";
      on_element page "realTimeButton" "click" "toggleRealTimeMode";
      on_element page "shareButton" "click" "shareResults";
      on_document page "DOMContentLoaded" "init" ].

(** Line 397: [Toastify.init()]. *)
Definition toastify_init (page : Page) : statement := λ ls,
  if toastify_inits page then (None, ls)
  else (Some "TypeError: Toastify.init is not a function", ls).

(** [init], lines 386-398. *)
Definition init (page : Page) : statement :=
  in_order
    [ addEventListener page (has_drop_zone page) ".drop-zone" "dragover"
        "handleDragOver";
      addEventListener page (has_drop_zone page) ".drop-zone" "drop"
        "handleDrop";
      on_element page "tourButton" "click" "startTour";
      toastify_init page ].

(** [init] as the event loop runs it on [DOMContentLoaded]. *)
Definition init_handler (page : Page) : M unit := λ w,
  match init page [] with
  | (None, ls) => (inr (), w, map ListenerAdded ls)
  | (Some x, ls) => (inl x, w, map ListenerAdded ls)
  end.

(** The listener of line 40. *)
Definition change_listener : Listener :=
  {| listens_on := "fileInput"; listens_for := "change";
     handler_name := "handleFileUpload" |}.

(** The page has everything the script asks for when it is loaded. *)
Definition page_complete (page : Page) : bool :=
  highScores_readable page
  && forallb (λ id, mem id (element_ids page))
       [ "fileInput"; "playPauseButton"; "volumeSlider"; "muteButton";
         "realTimeButton"; "shareButton" ]
  && mem "handleDragOver" (page_functions page)
  && mem "handleDrop" (page_functions page).

(** The script is loaded and, when line 401 was reached, [init] runs on
    [DOMContentLoaded]. *)
Definition startup (page : Page) : option exn * list Listener :=
  match load_script page [] with
  | (None, ls) => init page ls
  | failed => failed
  end.

(** A page with the elements of the script and nothing from other scripts,
    and a page that has all the script asks for. *)
Definition bare_page : Page :=
  {| element_ids :=
       ["fileInput"; "playPauseButton"; "volumeSlider"; "muteButton";
        "realTimeButton"; "shareButton"; "tourButton"];
     has_drop_zone := true;
     page_functions := [];
     highScores_readable := true;
     toastify_inits := true |}.

Definition full_page : Page :=
  {| element_ids :=
       ["fileInput"; "playPauseButton"; "volumeSlider"; "muteButton";
        "realTimeButton"; "shareButton"; "tourButton"];
     has_drop_zone := true;
     page_functions := ["handleDragOver"; "handleDrop"];
     highScores_readable := true;
     toastify_inits := true |}.

Definition no_toastify_page : Page :=
  {| element_ids := element_ids full_page;
     has_drop_zone := true;
     page_functions := page_functions full_page;
     highScores_readable := true;
     toastify_inits := false |}.

(** ** The event loop *)

(** What the browser can deliver to the script. *)
Inductive event :=
| FileChosen (e : UploadEvent)       (* change of the input, or a drop *)
| MuteClicked
| RealTimeClicked
| MicGranted                         (* a getUserMedia promise fulfils *)
| MicDenied (err : exn)              (* ... or rejects *)
| ChunkReady (r : nat) (blob : Blob) (* dataavailable on recorder [r] *)
| FetchSettled (seq : nat) (o : fetch_outcome) (now : nat)
| PlayPauseClicked                   (* line 43 *)
| VolumeInput (parsed : option Q)    (* line 44 *)
| ShareClicked (href : string) (canShare : bool)   (* line 47 *)
| DomContentLoaded (page : Page)     (* line 401 *)
| TourClicked                        (* line 394 *)
| PlayerSignal (playing : bool).     (* 'play' or 'pause', lines 132-133 *)

(** The handler an event runs, and the world it runs in; [None] when the
    browser cannot deliver the event (no such request, no such recorder, no
    player). *)
Definition dispatch (e : event) (w : World) : option (M unit * World) :=
  match e with
  | FileChosen ev => Some (handleFileUpload ev, w)
  | MuteClicked => Some (toggleMute, w)
  | RealTimeClicked => Some (toggleRealTimeMode, w)
  | MicGranted =>
      match micRequests w with
      | S n => Some (try_catch onStream onStreamError, with_micRequests n w)
      | O => None
      end
  | MicDenied err =>
      match micRequests w with
      | S n => Some (try_catch (throw err) onStreamError, with_micRequests n w)
      | O => None
      end
  | ChunkReady r blob =>
      match recorders w !! r with
      | Some _ => Some (handleRealTimeAudioData blob, w)
      | None => None
      end
  | FetchSettled seq o now =>
      match pending w !! seq with
      | Some (UploadFile file) =>
          Some (handleFileUpload_resume file o now,
                with_pending (delete seq (pending w)) w)
      | Some (CaptureChunk _) =>
          Some (handleRealTimeAudioData_resume o now,
                with_pending (delete seq (pending w)) w)
      | None => None
      end
  | PlayPauseClicked => Some (togglePlayPause_handler, w)
  | VolumeInput parsed => Some (handleVolumeChange parsed, w)
  | ShareClicked href canShare => Some (shareResults_handler href canShare, w)
  | DomContentLoaded page => Some (init_handler page, w)
  | TourClicked => Some (startTour, w)
  | PlayerSignal playing =>
      match wavesurfer (globals w) with
      | Some _ =>
          Some (assign (if playing then on_play else on_pause), w)
      | None => None
      end
  end.

(** One turn of the event loop.  An exception that leaves a handler is
    reported ([Uncaught]) and the loop goes on. *)
Definition step (e : event) (w : World) : option (World * list effect) :=
  match dispatch e w with
  | Some (handler, w0) =>
      match handler w0 with
      | (inr _, w1, effs) => Some (w1, effs)
      | (inl x, w1, effs) => Some (w1, effs ++ [Uncaught x])
      end
  | None => None
  end.

(** The events of [evs] delivered one after the other, with all the calls
    made on the way; [None] when one of them cannot be delivered. *)
Fixpoint run (evs : list event) (w : World) : option (World * list effect) :=
  match evs with
  | [] => Some (w, [])
  | e :: rest =>
      match step e w with
      | Some (w1, e1) =>
          match run rest w1 with
          | Some (w2, e2) => Some (w2, e1 ++ e2)
          | None => None
          end
      | None => None
      end
  end.

(** ** Sample inputs *)

Definition happy_wav : FileObj := {| name := "happy.wav"; type := "audio/wav" |}.
Definition notes_txt : FileObj := {| name := "notes.txt"; type := "text/plain" |}.
Definition choose (f : FileObj) : UploadEvent :=
  {| dataTransfer := None; target_files := [f] |}.
Definition happy : Classification :=
  {| emotion := "happy";
     probs := Some [("happy", 3 # 4); ("neutral", 1 # 4)] |}.
Definition neutral : Classification :=
  {| emotion := "neutral";
     probs := Some [("happy", 1 # 5); ("neutral", 4 # 5)] |}.
Definition ok_with (c : Classification) : fetch_outcome := Responded true (inr c).

(** The scenario of the specification: the upload is request 1, the chunk
    is request 2, and request 2 is answered first. *)
Definition race_trace : list event :=
  [ FileChosen (choose happy_wav); RealTimeClicked; MicGranted;
    ChunkReady 0 {| chunk_no := 0 |};
    FetchSettled 2 (ok_with neutral) 10;
    FetchSettled 1 (ok_with happy) 20 ].

(** ** What a trace says happened *)

(** The body a settled request delivers, when it delivers one. *)
Definition answer (o : fetch_outcome) : option Classification :=
  match o with
  | Responded true (inr data) => Some data
  | _ => None
  end.

(** The message of the exception [await_response] throws otherwise. *)
Definition failure (o : fetch_outcome) : option exn :=
  match o with
  | Rejected msg => Some msg
  | Responded false _ => Some "Failed to analyze audio"
  | Responded true (inl msg) => Some msg
  | Responded true (inr _) => None
  end.

(** A successful response: the sequence number of its request, the time it
    was handled at, its body. *)
Record Resolution := {
  res_seq : nat;
  res_time : nat;
  res_data : Classification
}.

(** The successful responses of a trace, in the order they arrived. *)
Fixpoint resolved (evs : list event) : list Resolution :=
  match evs with
  | [] => []
  | FetchSettled seq o now :: rest =>
      match answer o with
      | Some data =>
          {| res_seq := seq; res_time := now; res_data := data |} :: resolved rest
      | None => resolved rest
      end
  | _ :: rest => resolved rest
  end.

Definition entry_of (r : Resolution) : HistoryEntry :=
  {| time := res_time r; entry_emotion := emotion (res_data r) |}.

(** The response that arrived last. *)
Definition last_resolved (evs : list event) : option Resolution :=
  last (resolved evs).

(** The response whose request has the highest sequence number. *)
Fixpoint highest (rs : list Resolution) : option Resolution :=
  match rs with
  | [] => None
  | r :: rest =>
      match highest rest with
      | Some r' => if res_seq r <? res_seq r' then Some r' else Some r
      | None => Some r
      end
  end.

Definition highest_resolved (evs : list event) : option Resolution :=
  highest (resolved evs).

(** The responses put in the order their requests were issued. *)
Fixpoint insert_by_seq (r : Resolution) (rs : list Resolution) : list Resolution :=
  match rs with
  | [] => [r]
  | r' :: rest =>
      if res_seq r <=? res_seq r' then r :: r' :: rest
      else r' :: insert_by_seq r rest
  end.

Definition issue_order (rs : list Resolution) : list Resolution :=
  foldr insert_by_seq [] rs.







(** What [displayResults] needs: a shown emotion comes with its
    probabilities. *)
Definition coherent (s : Globals) : Prop :=
  truthy (detectedEmotion s) = true → is_Some (probabilities s).



(** The page has what [init] asks for. *)
Definition init_ready (page : Page) : bool :=
  has_drop_zone page
  && mem "handleDragOver" (page_functions page)
  && mem "handleDrop" (page_functions page)
  && mem "tourButton" (element_ids page)
  && toastify_inits page.



(** * Definitions for the proofs *)

(** ** Running handlers *)

Ltac unfold_monad :=
  unfold mbind, mret, M_bind, M_ret, bind, ret, throw, try_catch, try_finally,
    emit, read, assign, toast_error, toast_success, console_error,
    outcome, world_of, effects_of in *.

(** [updateUI] writes the DOM, and replaces the player when audio is loaded:
    of the world it changes [wavesurfer] and the player counter only. *)
Definition ui_touch (ws : option nat) (np : nat) (w : World) : World :=
  with_nextPlayer np (with_globals (set_wavesurfer ws (globals w)) w).

#[local] Arguments updateUI : simpl never.

(** The world [updateUI] runs in when an audio file is accepted. *)
Definition upload_started (file : FileObj) (w : World) : World :=
  with_globals
    (set_error None (set_isLoading true (set_fileName (name file) (globals w))))
    w.

Definition send (body : Payload) (w : World) : World :=
  with_nextSeq (S (nextSeq w)) (with_pending (<[nextSeq w := body]> (pending w)) w).

(** The world the [finally] block of the upload runs [updateUI] in. *)
Definition upload_settled (file : FileObj) (o : fetch_outcome) (now : nat)
    (w : World) : World :=
  match answer o, failure o with
  | Some data, _ =>
      with_globals
        (set_isLoading false
           (set_emotionHistory
              (emotionHistory (globals w)
                 ++ [{| time := now; entry_emotion := emotion data |}])
              (set_audioData (Some (nextUrl w))
                 (set_probabilities (probs data)
                    (set_detectedEmotion (Some (emotion data)) (globals w))))))
        (with_nextUrl (S (nextUrl w)) w)
  | None, Some msg =>
      with_globals (set_isLoading false (set_error (Some msg) (globals w))) w
  | None, None => w
  end.

Definition upload_notice (o : fetch_outcome) : list effect :=
  match failure o with
  | Some msg => [ToastError msg]
  | None => [ToastSuccess "Audio analysis complete"]
  end.

(** The world the chunk handler runs [updateUI] in after a response. *)
Definition chunk_answered (data : Classification) (now : nat) (w : World) : World :=
  with_globals
    (set_emotionHistory
       (emotionHistory (globals w)
          ++ [{| time := now; entry_emotion := emotion data |}])
       (set_probabilities (probs data)
          (set_detectedEmotion (Some (emotion data)) (globals w))))
    w.

(** ** The transition relation of the event loop *)

Definition forget (seq : nat) (w : World) : World :=
  with_pending (delete seq (pending w)) w.

Definition stopped (w : World) : World :=
  let w1 := with_globals (set_isRealTimeMode false (globals w)) w in
  match mediaRecorder (globals w) with
  | Some r => with_recorders (<[r := false]> (recorders w)) w1
  | None => w1
  end.

Definition recording (w : World) : World :=
  let r := length (recorders w) in
  with_recorders (<[r := true]> (recorders w ++ [false]))
    (with_globals (set_mediaRecorder (Some r) (globals w)) w).

(** [moves w e w']: delivering [e] in [w] leaves [w'].  One constructor per
    path through the handlers. *)
Inductive moves (w : World) : event → World → Prop :=
| mv_no_file ev :
    chosen_file ev = None →
    moves w (FileChosen ev) w
| mv_rejected ev file :
    chosen_file ev = Some file → is_audio file = false →
    moves w (FileChosen ev) w
| mv_upload ev file ws np :
    chosen_file ev = Some file → is_audio file = true →
    outcome (updateUI (upload_started file w)) = inr () →
    moves w (FileChosen ev)
      (send (UploadFile file) (ui_touch ws np (upload_started file w)))
| mv_upload_thrown ev file ws np x :
    chosen_file ev = Some file → is_audio file = true →
    outcome (updateUI (upload_started file w)) = inl x →
    moves w (FileChosen ev) (ui_touch ws np (upload_started file w))
| mv_mute :
    moves w MuteClicked
      (with_globals (set_isMuted (negb (isMuted (globals w))) (globals w)) w)
| mv_start :
    isRealTimeMode (globals w) = false →
    moves w RealTimeClicked
      (with_micRequests (S (micRequests w))
         (with_globals (set_isRealTimeMode true (globals w)) w))
| mv_stop :
    isRealTimeMode (globals w) = true →
    moves w RealTimeClicked (stopped w)
| mv_granted n :
    micRequests w = S n →
    moves w MicGranted (recording (with_micRequests n w))
| mv_denied n err :
    micRequests w = S n →
    moves w (MicDenied err) (with_micRequests n w)
| mv_chunk r blob b :
    recorders w !! r = Some b →
    moves w (ChunkReady r blob) (send (CaptureChunk blob) w)
| mv_upload_settled seq file o now ws np :
    pending w !! seq = Some (UploadFile file) →
    moves w (FetchSettled seq o now)
      (ui_touch ws np (upload_settled file o now (forget seq w)))
| mv_chunk_answered seq blob o now data ws np :
    pending w !! seq = Some (CaptureChunk blob) →
    answer o = Some data →
    moves w (FetchSettled seq o now)
      (ui_touch ws np (chunk_answered data now (forget seq w)))
| mv_chunk_failed seq blob o now :
    pending w !! seq = Some (CaptureChunk blob) →
    answer o = None →
    moves w (FetchSettled seq o now) (forget seq w)
| mv_play_pause h :
    wavesurfer (globals w) = Some h →
    moves w PlayPauseClicked
      (with_globals (set_isPlaying (negb (isPlaying (globals w))) (globals w)) w)
| mv_play_pause_idle :
    wavesurfer (globals w) = None →
    moves w PlayPauseClicked w
| mv_volume parsed :
    moves w (VolumeInput parsed)
      (with_globals (set_volume parsed (globals w)) w)
| mv_share href canShare :
    moves w (ShareClicked href canShare) w
| mv_loaded page :
    moves w (DomContentLoaded page) w
| mv_tour :
    moves w TourClicked w
| mv_signal playing h :
    wavesurfer (globals w) = Some h →
    moves w (PlayerSignal playing)
      (with_globals (set_isPlaying playing (globals w)) w).

(** ** Invariants *)

Ltac unfold_worlds :=
  unfold coherent, send, ui_touch, upload_started, upload_settled,
    chunk_answered, forget, stopped, recording in *.

(** What one event does to the current result and to the history: nothing,
    unless it is a successful response. *)
Definition current_after (e : event) (s : Globals)
    : option string * option (list (string * Q)) * list HistoryEntry :=
  match resolved [e] with
  | r :: _ =>
      (Some (emotion (res_data r)), probs (res_data r),
       emotionHistory s ++ [entry_of r])
  | [] => (detectedEmotion s, probabilities s, emotionHistory s)
  end.

(** *** The loading flag *)



(** ** The claims *)

(** Where the scenario of the specification ends, and what it did. *)
Definition race_world : World :=
  Eval vm_compute in
    match run race_trace initial_world with
    | Some (w, _) => w
    | None => initial_world
    end.

Definition race_effects : list effect :=
  Eval vm_compute in
    match run race_trace initial_world with
    | Some (_, effs) => effs
    | None => []
    end.

(** *** C1: which response is current *)

(** The claim as the specification words it: the current result is the one
    of the highest sequence number among the responses so far. *)
Definition current_is_highest (evs : list event) (w : World) : Prop :=
  detectedEmotion (globals w) = (emotion ∘ res_data) <$> highest_resolved evs
  ∧ probabilities (globals w) = highest_resolved evs ≫= (probs ∘ res_data).

(** *** C2: the history *)

(** The claim as the specification words it: the history lists the
    responses in the order their requests were issued. *)
Definition history_in_issue_order (evs : list event) (w : World) : Prop :=
  map entry_emotion (emotionHistory (globals w))
  = map (emotion ∘ res_data) (issue_order (resolved evs)).

(** *** C3: the loading flag *)


Definition sad_wav : FileObj := {| name := "sad.wav"; type := "audio/wav" |}.

(** Two uploads overlap and the first one is answered. *)
Definition overlap_trace : list event :=
  [ FileChosen (choose happy_wav); FileChosen (choose sad_wav);
    FetchSettled 1 (ok_with happy) 5 ].

Definition overlap_world : World :=
  Eval vm_compute in
    match run overlap_trace initial_world with
    | Some (w, _) => w
    | None => initial_world
    end.

Definition overlap_effects : list effect :=
  Eval vm_compute in
    match run overlap_trace initial_world with
    | Some (_, effs) => effs
    | None => []
    end.




(** A body that names an emotion and has no [probabilities]. *)
Definition bare_happy : Classification :=
  {| emotion := "happy"; probs := None |}.

(** A chunk is answered with such a body, then an audio file is chosen. *)
Definition bare_answer_trace : list event :=
  [ RealTimeClicked; MicGranted; ChunkReady 0 {| chunk_no := 0 |};
    FetchSettled 1 (ok_with bare_happy) 3; FileChosen (choose happy_wav) ].

Definition bare_answer_world : World :=
  Eval vm_compute in
    match run bare_answer_trace initial_world with
    | Some (w, _) => w
    | None => initial_world
    end.

Definition bare_answer_effects : list effect :=
  Eval vm_compute in
    match run bare_answer_trace initial_world with
    | Some (_, effs) => effs
    | None => []
    end.

(** *** C5: one capture session *)

(** No click on the real-time button while a device request is pending. *)
Fixpoint clicks_wait_for_device (evs : list event) (w : World) : bool :=
  match evs with
  | [] => true
  | e :: rest =>
      match e with
      | RealTimeClicked => micRequests w =? 0
      | _ => true
      end
      && match step e w with
         | Some (w1, _) => clicks_wait_for_device rest w1
         | None => true
         end
  end.

(** A recorder that records is the current one, the mode is on and no device
    request is pending; a pending request is the only one, made with the
    mode on. *)
Definition one_session (w : World) : Prop :=
  (∀ r, recorders w !! r = Some true →
        mediaRecorder (globals w) = Some r
        ∧ isRealTimeMode (globals w) = true ∧ micRequests w = 0)
  ∧ (0 < micRequests w →
     isRealTimeMode (globals w) = true ∧ micRequests w = 1).

(** Three clicks on the real-time button before the browser has answered
    the first device request, then both requests are granted. *)
Definition impatient_trace : list event :=
  [ RealTimeClicked; RealTimeClicked; RealTimeClicked; MicGranted; MicGranted ].

Definition impatient_world : World :=
  Eval vm_compute in
    match run impatient_trace initial_world with
    | Some (w, _) => w
    | None => initial_world
    end.

Definition impatient_effects : list effect :=
  Eval vm_compute in
    match run impatient_trace initial_world with
    | Some (_, effs) => effs
    | None => []
    end.

(** ... and one more click, which stops real-time mode. *)
Definition impatient_stopped : World :=
  Eval vm_compute in
    match run [RealTimeClicked] impatient_world with
    | Some (w, _) => w
    | None => impatient_world
    end.

(** Real-time mode switched on and the microphone granted: recorder 0
    records. *)
Definition capturing_world : World :=
  Eval vm_compute in
    match run [RealTimeClicked; MicGranted] initial_world with
    | Some (w, _) => w
    | None => initial_world
    end.

(** *** C6: stopping twice *)

(** The claim as the specification words it: a second [stop()] changes
    nothing and does not call the recorder. *)
Definition second_stop_is_silent (w : World) : Prop :=
  let w1 := world_of (stopRealTimeDetection w) in
  world_of (stopRealTimeDetection w1) = w1
  ∧ ∀ r, RecorderStop r ∉ effects_of (stopRealTimeDetection w1).

(** *** C8: failed submissions *)


(** Recorder 0 has delivered a chunk, which is request 1. *)
Definition chunk_sent_world : World :=
  Eval vm_compute in
    match run [RealTimeClicked; MicGranted; ChunkReady 0 {| chunk_no := 0 |}]
              initial_world with
    | Some (w, _) => w
    | None => initial_world
    end.

(** *** C9: what a failed upload leaves behind *)

(** The current emotion, its probabilities, the loaded audio and the
    history. *)
Definition results (w : World)
    : option string * option (list (string * Q)) * option nat
      * list HistoryEntry :=
  (detectedEmotion (globals w), probabilities (globals w),
   audioData (globals w), emotionHistory (globals w)).

(** ** Further properties of the handlers *)





(** The code unit U+D800 on its own, and where an upload answered with it
    as the emotion leaves the script. *)
Definition lone_surrogate : string :=
  String (ascii_of_nat 237) (String (ascii_of_nat 160)
    (String (ascii_of_nat 128) EmptyString)).

Definition garbled_world : World :=
  Eval vm_compute in
    match run [ FileChosen (choose happy_wav);
                FetchSettled 1
                  (ok_with {| emotion := lone_surrogate; probs := Some [] |}) 4 ]
              initial_world with
    | Some (w, _) => w
    | None => initial_world
    end.

Definition garbled_effects : list effect :=
  Eval vm_compute in
    match run [ FileChosen (choose happy_wav);
                FetchSettled 1
                  (ok_with {| emotion := lone_surrogate; probs := Some [] |}) 4 ]
              initial_world with
    | Some (_, effs) => effs
    | None => []
    end.

(** The audio files a trace has had accepted for upload, in order. *)
Fixpoint chosen_audio (evs : list event) : list FileObj :=
  match evs with
  | [] => []
  | FileChosen ev :: rest =>
      match chosen_file ev with
      | Some file =>
          if is_audio file then file :: chosen_audio rest
          else chosen_audio rest
      | None => chosen_audio rest
      end
  | _ :: rest => chosen_audio rest
  end.

(** The second of the two overlapping uploads is answered as well. *)
Definition second_answer : list event := [FetchSettled 2 (ok_with neutral) 9].

Definition overlap_finished : World :=
  Eval vm_compute in
    match run second_answer overlap_world with
    | Some (w, _) => w
    | None => overlap_world
    end.

Definition second_answer_effects : list effect :=
  Eval vm_compute in
    match run second_answer overlap_world with
    | Some (_, effs) => effs
    | None => []
    end.

(** *** The waveform player *)

(** The player the script holds, as a list. *)
Definition player_of (s : Globals) : list nat :=
  match wavesurfer s with
  | Some h => [h]
  | None => []
  end.

(** Calls on a WaveSurfer instance. *)
Definition touches_player (e : effect) : bool :=
  match e with
  | PlayerDestroy _ | PlayerLoad _ _ | PlayerSetMute _ _ => true
  | PlayerSetVolume _ _ | Playback (PlayPause _) => true
  | _ => false
  end.

(** The players alive after the calls [effs] when [live] were alive before.
    [initWavesurfer] loads a player right after creating it, so
    [PlayerLoad h] stands for the creation of [h]. *)
Fixpoint live_players (live : list nat) (effs : list effect) : list nat :=
  match effs with
  | [] => live
  | PlayerDestroy h :: rest =>
      live_players (List.filter (λ k, negb (k =? h)) live) rest
  | PlayerLoad h _ :: rest => live_players (live ++ [h]) rest
  | _ :: rest => live_players live rest
  end.

(** No player is created while another one is alive: at every [PlayerLoad]
    the players alive so far have all been destroyed. *)
Fixpoint never_two_alive (live : list nat) (effs : list effect) : bool :=
  match effs with
  | [] => true
  | PlayerDestroy h :: rest =>
      never_two_alive (List.filter (λ k, negb (k =? h)) live) rest
  | PlayerLoad h _ :: rest =>
      match live with
      | [] => never_two_alive [h] rest
      | _ :: _ => false
      end
  | _ :: rest => never_two_alive live rest
  end.

(** The world in which the handler of [e] calls [updateUI], when it does. *)
Definition ui_world (e : event) (w : World) : option World :=
  match e with
  | FileChosen ev =>
      match chosen_file ev with
      | Some file => if is_audio file then Some (upload_started file w) else None
      | None => None
      end
  | FetchSettled seq o now =>
      match pending w !! seq with
      | Some (UploadFile file) => Some (upload_settled file o now (forget seq w))
      | Some (CaptureChunk _) =>
          match answer o with
          | Some data => Some (chunk_answered data now (forget seq w))
          | None => None
          end
      | None => None
      end
  | _ => None
  end.

(** What [updateUI] does to the player in world [w]. *)
Definition refresh_calls (w : World) : list effect :=
  match audioData (globals w) with
  | Some url =>
      match wavesurfer (globals w) with
      | Some old => [PlayerDestroy old]
      | None => []
      end ++ [PlayerLoad (nextPlayer w) (Some url)]
  | None => []
  end.

Definition refreshed (w : World) : World :=
  match audioData (globals w) with
  | Some _ => ui_touch (Some (nextPlayer w)) (S (nextPlayer w)) w
  | None => w
  end.

(** The calls the handler of [e] makes on players. *)
Definition player_calls (e : event) (w : World) : list effect :=
  match ui_world e w with
  | Some w1 => refresh_calls w1
  | None =>
      match e, wavesurfer (globals w) with
      | MuteClicked, Some h => [PlayerSetMute h (negb (isMuted (globals w)))]
      | PlayPauseClicked, Some h => [Playback (PlayPause h)]
      | VolumeInput parsed, Some h => [PlayerSetVolume h parsed]
      | _, _ => []
      end
  end.

(** The player reference and the player counter after [e]. *)
Definition player_after (e : event) (w : World) : option nat * nat :=
  match ui_world e w with
  | Some w1 => (wavesurfer (globals (refreshed w1)), nextPlayer (refreshed w1))
  | None => (wavesurfer (globals w), nextPlayer w)
  end.

(** The loaded audio after [e]. *)
Definition audio_after (e : event) (w : World) : option nat :=
  match ui_world e w with
  | Some w1 => audioData (globals w1)
  | None => audioData (globals w)
  end.

(** A player exists exactly when audio is loaded, and its number is below
    the next one to be given. *)
Definition player_matches_audio (w : World) : Prop :=
  (is_Some (wavesurfer (globals w)) ↔ is_Some (audioData (globals w)))
  ∧ ∀ h, wavesurfer (globals w) = Some h → h < nextPlayer w.

(** *** The volume *)

(** What the volume changes of a trace parsed, in order. *)
Fixpoint volume_inputs (evs : list event) : list (option Q) :=
  match evs with
  | [] => []
  | VolumeInput parsed :: rest => parsed :: volume_inputs rest
  | _ :: rest => volume_inputs rest
  end.

Definition is_set_volume (e : effect) : bool :=
  match e with
  | PlayerSetVolume _ _ => true
  | _ => false
  end.

(** An upload is answered, the volume is halved, and a second upload is
    answered. *)
Definition turned_down_trace : list event :=
  [ FileChosen (choose happy_wav); FetchSettled 1 (ok_with happy) 4;
    VolumeInput (Some (1 # 2)%Q);
    FileChosen (choose sad_wav); FetchSettled 2 (ok_with neutral) 9 ].

Definition turned_down_world : World :=
  Eval vm_compute in
    match run turned_down_trace initial_world with
    | Some (w, _) => w
    | None => initial_world
    end.

Definition turned_down_effects : list effect :=
  Eval vm_compute in
    match run turned_down_trace initial_world with
    | Some (_, effs) => effs
    | None => []
    end.

(** *** Real-time capture *)

Definition is_device_request (e : effect) : bool :=
  match e with
  | GetUserMedia => true
  | _ => false
  end.

(** The variables an answered chunk has no business with, and the browser
    side apart from the request table and the player. *)
Definition upload_side (w : World)
    : bool * option string * option nat * string * bool * option Q * bool
      * bool * option nat * (nat * list bool * nat * nat) :=
  (isLoading (globals w), error (globals w), audioData (globals w),
   fileName (globals w), isPlaying (globals w), volume (globals w),
   isMuted (globals w), isRealTimeMode (globals w), mediaRecorder (globals w),
   (micRequests w, recorders w, nextSeq w, nextUrl w)).

(** ** The visualizer's frame *)

(** Calls of one run of [draw], lines 152-176.  A colour is the triple put
    into the [rgb(...)] string. *)
Inductive canvas_call :=
| RequestFrame                                   (* requestAnimationFrame(draw) *)
| FillRect (colour : Q * Q * Q) (x y w h : Q).   (* fillStyle, then fillRect *)

(** The [for] loop, lines 164-175, with [steps] iterations left, at index
    [i] and abscissa [x].  [dataArray] holds the bytes
    [getByteFrequencyData] has written, [bufferLength] is its length.  With
    the 128 bins the analyser has for [fftSize = 256] every quotient is by a
    power of two and every value a multiple of 1/256 far below 2^53, so the
    doubles of the script are these rationals exactly. *)
Fixpoint draw_loop (HEIGHT barWidth : Q) (bufferLength : nat)
    (dataArray : list Z) (steps i : nat) (x : Q) : list canvas_call :=
  match steps with
  | O => []
  | S k =>
      let barHeight := (inject_Z (nth i dataArray 0%Z) / 2)%Q in
      let ratio := (inject_Z (Z.of_nat i) / inject_Z (Z.of_nat bufferLength))%Q in
      let r := (barHeight + 25 * ratio)%Q in
      let g := (250 * ratio)%Q in
      let b := 50%Q in
      FillRect (r, g, b) x (HEIGHT - barHeight)%Q barWidth barHeight
      :: draw_loop HEIGHT barWidth bufferLength dataArray k (S i)
           (x + (barWidth + 1))%Q
  end.

(** [draw], lines 152-176: one frame on a canvas of [WIDTH] by [HEIGHT]. *)
Definition draw (WIDTH HEIGHT : Z) (dataArray : list Z) : list canvas_call :=
  let bufferLength := length dataArray in
  let barWidth :=
    (inject_Z WIDTH / inject_Z (Z.of_nat bufferLength) * (5 # 2))%Q in
  RequestFrame
  :: FillRect (0, 0, 0)%Q 0%Q 0%Q (inject_Z WIDTH) (inject_Z HEIGHT)
  :: draw_loop (inject_Z HEIGHT) barWidth bufferLength dataArray
       bufferLength 0 0%Q.

(** The bytes of a [Uint8Array]. *)
Definition bytes (dataArray : list Z) : Prop :=
  Forall (λ d, (0 ≤ d ≤ 255)%Z) dataArray.

(** A loud frame on a canvas 300 wide and 150 high, and its bar 52. *)
Definition loud : list Z := repeat 255%Z 128.

Definition loud_bar_52 : option canvas_call :=
  Eval vm_compute in draw 300 150 loud !! 54.

(** Case analysis on what the page has. *)
Ltac page_cases page :=
  repeat match goal with
         | |- context [mem ?id (?f page)] =>
             let b := fresh "b" in
             destruct (mem id (f page)) eqn:b
         end.

(** * Proofs *)

(** ** Running handlers *)

Lemma updateUI_world w : ∃ ws np, world_of (updateUI w) = ui_touch ws np w.
Proof.
  destruct w as [[de pr lo er au fn pl vo mu hi rt ws mr] pe ns mi re np nu].
  destruct au, ws, pr, de as [[|a s]|]; by eexists _, _.
Qed.




(** *** handleFileUpload *)

Lemma handleFileUpload_none ev w :
  chosen_file ev = None → handleFileUpload ev w = (inr (), w, []).
Proof. unfold handleFileUpload. by intros ->. Qed.

Lemma handleFileUpload_reject ev file w :
  chosen_file ev = Some file → is_audio file = false →
  handleFileUpload ev w = (inr (), w, [ToastError "Please upload an audio file"]).
Proof. unfold handleFileUpload. by intros -> ->. Qed.

Lemma handleFileUpload_accept ev file w :
  chosen_file ev = Some file → is_audio file = true →
  handleFileUpload ev w =
    let u := updateUI (upload_started file w) in
    match outcome u with
    | inr _ => (inr (), send (UploadFile file) (world_of u),
                effects_of u ++ [Fetch (nextSeq (world_of u)) (UploadFile file)])
    | inl x => (inl x, world_of u, effects_of u)
    end.
Proof.
  unfold handleFileUpload. intros -> ->. cbn.
  unfold_monad. cbn. unfold upload_started.
  destruct (updateUI _) as [[[x|[]] w1] e1]; cbn; [done|].
  done.
Qed.

Lemma handleFileUpload_resume_run file o now w :
  handleFileUpload_resume file o now w =
    let u := updateUI (upload_settled file o now w) in
    (outcome u, world_of u, upload_notice o ++ effects_of u).
Proof.
  unfold handleFileUpload_resume, upload_settled, upload_notice.
  destruct o as [msg|[] [msg|data]]; cbn; unfold_monad; cbn;
    by destruct (updateUI _) as [[[x|[]] w1] e1].
Qed.

(** *** handleRealTimeAudioData *)

Lemma handleRealTimeAudioData_run blob w :
  handleRealTimeAudioData blob w =
    (inr (), send (CaptureChunk blob) w, [Fetch (nextSeq w) (CaptureChunk blob)]).
Proof. done. Qed.

Lemma handleRealTimeAudioData_resume_ok data now w :
  handleRealTimeAudioData_resume (Responded true (inr data)) now w =
    let u := updateUI (chunk_answered data now w) in
    match outcome u with
    | inr _ => (inr (), world_of u, effects_of u)
    | inl x => (inr (), world_of u,
                effects_of u ++ [ConsoleError "Error in real-time analysis:" x])
    end.
Proof.
  unfold handleRealTimeAudioData_resume, chunk_answered.
  unfold_monad. cbn.
  by destruct (updateUI _) as [[[x|[]] w1] e1].
Qed.

Lemma handleRealTimeAudioData_resume_fail o now msg w :
  failure o = Some msg →
  handleRealTimeAudioData_resume o now w =
    (inr (), w, [ConsoleError "Error in real-time analysis:" msg]).
Proof.
  unfold handleRealTimeAudioData_resume.
  destruct o as [m|[] [m|data]]; cbn; intros [= <-]; done.
Qed.

(** *** Real-time capture *)

Lemma startRealTimeDetection_run w :
  startRealTimeDetection w =
    (inr (),
     with_micRequests (S (micRequests w))
       (with_globals (set_isRealTimeMode true (globals w)) w),
     [ButtonText RealTimeButton "Stop Real-Time Detection"; GetUserMedia]).
Proof. done. Qed.

Lemma stopRealTimeDetection_run w :
  stopRealTimeDetection w =
    let w1 := with_globals (set_isRealTimeMode false (globals w)) w in
    match mediaRecorder (globals w) with
    | Some r =>
        (inr (), with_recorders (<[r := false]> (recorders w)) w1,
         [ButtonText RealTimeButton "Start Real-Time Detection"; RecorderStop r])
    | None =>
        (inr (), w1, [ButtonText RealTimeButton "Start Real-Time Detection"])
    end.
Proof.
  unfold stopRealTimeDetection. unfold_monad. cbn.
  by destruct (mediaRecorder (globals w)).
Qed.

Lemma toggleRealTimeMode_run w :
  toggleRealTimeMode w =
    if isRealTimeMode (globals w) then stopRealTimeDetection w
    else startRealTimeDetection w.
Proof.
  unfold toggleRealTimeMode. unfold_monad. cbn.
  destruct (isRealTimeMode (globals w));
    by destruct (_ w) as [[[x|[]] w1] e1].
Qed.

Lemma onStream_run w :
  try_catch onStream onStreamError w =
    let r := length (recorders w) in
    (inr (),
     with_recorders (<[r := true]> (recorders w ++ [false]))
       (with_globals (set_mediaRecorder (Some r) (globals w)) w),
     [RecorderStart r 1000]).
Proof. done. Qed.

Lemma onStreamError_run err w :
  try_catch (throw err) onStreamError w =
    (inr (), w,
     [ConsoleError "Error accessing microphone:" err;
      ToastError "Unable to access microphone"]).
Proof. done. Qed.

(** *** toggleMute *)

Lemma toggleMute_run w :
  toggleMute w =
    let m := negb (isMuted (globals w)) in
    (inr (), with_globals (set_isMuted m (globals w)) w,
     match wavesurfer (globals w) with
     | Some h => [PlayerSetMute h m]
     | None => []
     end ++ [ButtonText MuteButton (if m then "Unmute" else "Mute")]).
Proof.
  unfold toggleMute. unfold_monad. cbn.
  by destruct (wavesurfer (globals w)).
Qed.

(** *** Playback, volume, sharing and start-up *)

Lemma with_globals_id w : with_globals (globals w) w = w.
Proof. by destruct w. Qed.

Lemma handleVolumeChange_run parsed w :
  handleVolumeChange parsed w =
    (inr (), with_globals (set_volume parsed (globals w)) w,
     match wavesurfer (globals w) with
     | Some h => [PlayerSetVolume h parsed]
     | None => []
     end).
Proof.
  unfold handleVolumeChange. unfold_monad. cbn.
  by destruct (wavesurfer (globals w)).
Qed.

(** ** The transition relation of the event loop *)

Lemma answer_or_failure o :
  (∃ data, answer o = Some data ∧ failure o = None ∧ o = Responded true (inr data))
  ∨ (∃ msg, answer o = None ∧ failure o = Some msg).
Proof. destruct o as [m|[] [m|data]]; cbn; eauto 6. Qed.

Lemma step_moves e w w' effs : step e w = Some (w', effs) → moves w e w'.
Proof.
  unfold step, dispatch. destruct e as [ev| | | |err|r blob|seq o now
                 | |parsed|href canShare|page| |playing].
  - destruct (chosen_file ev) as [file|] eqn:Hf.
    + destruct (is_audio file) eqn:Ha.
      * rewrite (handleFileUpload_accept _ _ _ Hf Ha). cbn.
        destruct (updateUI_world (upload_started file w)) as (ws & np & Hw).
        destruct (outcome (updateUI (upload_started file w))) as [x|[]] eqn:Ho;
          intros [= <- <-]; rewrite Hw.
        -- by eapply mv_upload_thrown.
        -- by eapply mv_upload.
      * rewrite (handleFileUpload_reject _ _ _ Hf Ha). intros [= <- <-].
        by eapply mv_rejected.
    + rewrite (handleFileUpload_none _ _ Hf). intros [= <- <-].
      by apply mv_no_file.
  - rewrite toggleMute_run. cbn. intros [= <- <-]. apply mv_mute.
  - rewrite toggleRealTimeMode_run.
    destruct (isRealTimeMode (globals w)) eqn:Hrt.
    + rewrite stopRealTimeDetection_run. cbn.
      pose proof (mv_stop w Hrt) as Hm. unfold stopped in Hm. cbn in Hm.
      destruct (mediaRecorder (globals w)); by intros [= <- <-].
    + rewrite startRealTimeDetection_run. intros [= <- <-]. by apply mv_start.
  - destruct (micRequests w) as [|n] eqn:Hn; [done|].
    rewrite onStream_run. cbn. intros [= <- <-]. by apply mv_granted.
  - destruct (micRequests w) as [|n] eqn:Hn; [done|].
    rewrite onStreamError_run. intros [= <- <-]. by apply mv_denied.
  - destruct (recorders w !! r) as [b|] eqn:Hr; [|done].
    rewrite handleRealTimeAudioData_run. intros [= <- <-]. by eapply mv_chunk.
  - destruct (pending w !! seq) as [[file|blob]|] eqn:Hp; [| |done].
    + rewrite handleFileUpload_resume_run. cbn.
      destruct (updateUI_world (upload_settled file o now
                  (with_pending (delete seq (pending w)) w))) as (ws & np & Hw).
      destruct (outcome _); intros [= <- <-]; rewrite Hw;
        by apply mv_upload_settled.
    + destruct (answer_or_failure o) as [(data & Ha & _ & ->)|(msg & Ha & Hf)].
      * rewrite handleRealTimeAudioData_resume_ok. cbn.
        destruct (updateUI_world (chunk_answered data now
                    (with_pending (delete seq (pending w)) w))) as (ws & np & Hw).
        destruct (outcome _); intros [= <- <-]; rewrite Hw;
          by eapply mv_chunk_answered.
      * rewrite (handleRealTimeAudioData_resume_fail _ _ _ _ Hf).
        intros [= <- <-]. by eapply mv_chunk_failed.
  - unfold togglePlayPause_handler, togglePlayPause.
    destruct (wavesurfer (globals w)) as [h|] eqn:Hws; cbn; intros [= <- <-].
    + by eapply mv_play_pause.
    + rewrite with_globals_id. by apply mv_play_pause_idle.
  - rewrite handleVolumeChange_run. intros [= <- <-]. apply mv_volume.
  - unfold shareResults_handler.
    destruct (shareResults _ _ _) as [[x|] calls]; intros [= <- <-];
      apply mv_share.
  - unfold init_handler.
    destruct (init page []) as [[x|] ls]; intros [= <- <-]; apply mv_loaded.
  - intros [= <- <-]. apply mv_tour.
  - destruct (wavesurfer (globals w)) as [h|] eqn:Hws; [|done].
    destruct playing; intros [= <- <-]; by eapply mv_signal.
Qed.

(** ** Invariants *)

Lemma resolved_cons e rest : resolved (e :: rest) = resolved [e] ++ resolved rest.
Proof.
  destruct e as [| | | | | |seq o now| | | | | |]; cbn; try done.
  by destruct (answer o).
Qed.






Lemma moves_current w e w' :
  moves w e w' →
  (detectedEmotion (globals w'), probabilities (globals w'),
   emotionHistory (globals w')) = current_after e (globals w).
Proof.
  destruct 1; unfold_worlds; unfold current_after; cbn; try done.
  - by destruct (mediaRecorder (globals w)).
  - by destruct o as [m|[] [m|data]].
  - by rewrite H0.
  - by rewrite H0.
Qed.

Lemma resolved_single e : length (resolved [e]) ≤ 1.
Proof.
  destruct e as [| | | | | |seq o now| | | | | |]; cbn; try lia.
  destruct (answer o); cbn; lia.
Qed.

(** After a run: the history has grown by the successful responses in the
    order they arrived, and the current result is the last of them. *)
Lemma run_current evs : ∀ w w' effs,
  run evs w = Some (w', effs) →
  emotionHistory (globals w')
    = emotionHistory (globals w) ++ map entry_of (resolved evs)
  ∧ detectedEmotion (globals w')
    = match last_resolved evs with
      | Some r => Some (emotion (res_data r))
      | None => detectedEmotion (globals w)
      end
  ∧ probabilities (globals w')
    = match last_resolved evs with
      | Some r => probs (res_data r)
      | None => probabilities (globals w)
      end.
Proof.
  unfold last_resolved.
  induction evs as [|e rest IH]; intros w w' effs; cbn [run].
  - intros [= <- <-]. cbn. by rewrite app_nil_r.
  - destruct (step e w) as [[w1 e1]|] eqn:Hs; [|done].
    destruct (run rest w1) as [[w2 e2]|] eqn:Hr; [|done].
    intros [= <- <-].
    destruct (IH _ _ _ Hr) as (Hh & Hd & Hp).
    pose proof (moves_current _ _ _ (step_moves _ _ _ _ Hs)) as Hc.
    pose proof (resolved_single e) as Hlen.
    rewrite resolved_cons. unfold current_after in Hc.
    destruct (resolved [e]) as [|r [|r' l]]; [| |cbn in Hlen; lia];
      injection Hc as Hc1 Hc2 Hc3.
    + cbn. by rewrite Hh, Hd, Hp, Hc1, Hc2, Hc3.
    + rewrite Hh, Hd, Hp, Hc1, Hc2, Hc3. cbn [app map].
      rewrite <- app_assoc. split; [done|].
      change (r :: resolved rest) with ([r] ++ resolved rest).
      destruct (resolved rest) as [|r2 l2] eqn:Hrest using rev_ind; [done|].
      by rewrite app_assoc, !last_snoc.
Qed.

(** *** The loading flag *)










(** ** The claims *)

(** *** C1: which response is current *)

(** The upload is request 1 and the chunk request 2; the chunk is answered
    first ("neutral"), the upload second ("happy"): the upload's late answer
    replaces the current emotion although its sequence number is lower. *)
Lemma late_response_overwrites :
  run race_trace initial_world = Some (race_world, race_effects)
  ∧ (emotion ∘ res_data) <$> highest_resolved race_trace = Some "neutral"
  ∧ detectedEmotion (globals race_world) = Some "happy"
  ∧ ¬ current_is_highest race_trace race_world.
Proof.
  split; [vm_compute; reflexivity|].
  split; [reflexivity|]. split; [reflexivity|].
  intros [H _]. vm_compute in H. discriminate.
Qed.

(** C1 (as amended).  After any run of the event loop, [detectedEmotion] and
    [probabilities] are those of the successful response that arrived last,
    whatever the sequence number of its request (and [null] before the first
    one); every successful response, late or not, has appended its emotion
    to the history. *)
Theorem last_response_wins evs w effs :
  run evs initial_world = Some (w, effs) →
  detectedEmotion (globals w) = (emotion ∘ res_data) <$> last_resolved evs
  ∧ probabilities (globals w) = last_resolved evs ≫= (probs ∘ res_data)
  ∧ map entry_emotion (emotionHistory (globals w))
    = map (emotion ∘ res_data) (resolved evs).
Proof.
  intros Hr. destruct (run_current _ _ _ _ Hr) as (Hh & Hd & Hp).
  rewrite Hh, Hd, Hp. cbn.
  split; [by destruct (last_resolved evs)|].
  split; [by destruct (last_resolved evs)|].
  by rewrite map_map.
Qed.

Lemma last_response_wins_witness :
  run race_trace initial_world = Some (race_world, race_effects)
  ∧ detectedEmotion (globals race_world) = Some "happy"
  ∧ probabilities (globals race_world) = probs happy
  ∧ map entry_emotion (emotionHistory (globals race_world))
    = ["neutral"; "happy"].
Proof.
  split; [vm_compute; reflexivity|].
  apply (last_response_wins race_trace race_world race_effects).
  vm_compute; reflexivity.
Defined.

(** *** C2: the history *)

(** Same run: the history reads neutral, happy (arrival order); the issue
    order is happy (request 1), neutral (request 2). *)
Lemma history_not_in_issue_order :
  run race_trace initial_world = Some (race_world, race_effects)
  ∧ map entry_emotion (emotionHistory (globals race_world))
    = ["neutral"; "happy"]
  ∧ map (emotion ∘ res_data) (issue_order (resolved race_trace))
    = ["happy"; "neutral"]
  ∧ ¬ history_in_issue_order race_trace race_world.
Proof.
  split; [vm_compute; reflexivity|].
  split; [reflexivity|]. split; [reflexivity|].
  intros H. vm_compute in H. discriminate.
Qed.

(** C2 (as amended).  After a run with N successful responses the history has
    exactly N entries, one per response, in the order the responses arrived,
    each stamped with the time it was handled at. *)
Theorem history_in_arrival_order evs w effs :
  run evs initial_world = Some (w, effs) →
  emotionHistory (globals w) = map entry_of (resolved evs)
  ∧ length (emotionHistory (globals w)) = length (resolved evs).
Proof.
  intros Hr. destruct (run_current _ _ _ _ Hr) as (Hh & _).
  rewrite Hh. cbn. by rewrite length_map.
Qed.

Lemma history_in_arrival_order_witness :
  run race_trace initial_world = Some (race_world, race_effects)
  ∧ emotionHistory (globals race_world)
    = [ {| time := 10; entry_emotion := "neutral" |};
        {| time := 20; entry_emotion := "happy" |} ]
  ∧ length (emotionHistory (globals race_world)) = 2.
Proof.
  split; [vm_compute; reflexivity|].
  apply (history_in_arrival_order race_trace race_world race_effects).
  vm_compute; reflexivity.
Defined.

(** *** C3: the loading flag *)




(** What the amended claim leaves out: after an answer that names an emotion
    without probabilities, [updateUI] throws at line 68 of the next upload,
    before the request is sent, and the flag stays on with nothing in
    flight. *)
Example loading_stuck_after_bare_answer :
  run bare_answer_trace initial_world
    = Some (bare_answer_world, bare_answer_effects)
  ∧ isLoading (globals bare_answer_world) = true
  ∧ pending bare_answer_world = ∅
  ∧ last bare_answer_effects
    = Some (Uncaught "Cannot convert undefined or null to object").
Proof. split; [vm_compute; reflexivity|]. by vm_compute. Qed.

(** *** C4: a file that is not audio *)

(** C4.  When the chosen file's type does not start with [audio/], the
    handler shows the error toast and returns: the world is the one it
    started in (no variable written, no request in flight added) and the
    toast is the only call made, so no [fetch]. *)
Theorem non_audio_upload_rejected ev file w :
  chosen_file ev = Some file → is_audio file = false →
  handleFileUpload ev w
    = (inr (), w, [ToastError "Please upload an audio file"])
  ∧ step (FileChosen ev) w
    = Some (w, [ToastError "Please upload an audio file"]).
Proof.
  intros Hf Ha. unfold step, dispatch.
  by rewrite (handleFileUpload_reject _ _ _ Hf Ha).
Qed.

Lemma non_audio_upload_rejected_witness :
  step (FileChosen (choose notes_txt)) race_world
    = Some (race_world, [ToastError "Please upload an audio file"]).
Proof.
  apply (non_audio_upload_rejected (choose notes_txt) notes_txt race_world);
    reflexivity.
Defined.

(** *** C5: one capture session *)

Lemma moves_one_session w e w' :
  moves w e w' →
  (e = RealTimeClicked → micRequests w = 0) →
  one_session w → one_session w'.
Proof.
  unfold one_session.
  destruct 1; intros Hwait [Hrec Hmic]; try done.
  - (* start: nothing records while the mode is off *)
    cbn. split; [|intros _; split; [done|]; rewrite Hwait; done].
    intros r Hr. destruct (Hrec r Hr) as (_ & Hon & _). congruence.
  - (* stop: the current recorder is stopped *)
    unfold stopped. pose proof (Hwait eq_refl) as Hzero.
    destruct (mediaRecorder (globals w)) as [c|] eqn:Hcur; cbn.
    + split; [|lia]. intros r Hr.
      destruct (decide (c = r)) as [->|Hne].
      * apply list_lookup_insert_Some in Hr as [(_ & [=] & _)|[? _]]; done.
      * rewrite list_lookup_insert_ne in Hr by done.
        destruct (Hrec r Hr) as ([= ->] & _). done.
    + split; [|lia]. intros r Hr. by destruct (Hrec r Hr) as ([=] & _).
  - (* granted: nothing recorded while the request was pending *)
    destruct Hmic as [Hon Hone]; [lia|].
    assert (n = 0) as -> by lia.
    unfold recording; cbn. split; [|lia]. intros r Hr.
    destruct (decide (length (recorders w) = r)) as [<-|Hne]; [done|].
    rewrite list_lookup_insert_ne in Hr by done.
    apply lookup_app_Some in Hr as [Hr|[Hge Hr]].
    + destruct (Hrec r Hr) as (_ & _ & ?). lia.
    + destruct (r - length (recorders w)) as [|k] eqn:Hk; [lia|].
      by destruct k.
  - (* denied *)
    destruct Hmic as [Hon Hone]; [lia|].
    assert (n = 0) as -> by lia. cbn. split; [|lia].
    intros r Hr. destruct (Hrec r Hr) as (_ & _ & ?). lia.
  - (* an upload settles: the recorders are not involved *)
    unfold ui_touch, upload_settled, forget.
    by destruct (answer_or_failure o) as [(d & -> & _)|(m & -> & ->)].
Qed.

Lemma run_one_session evs : ∀ w w' effs,
  run evs w = Some (w', effs) →
  clicks_wait_for_device evs w = true →
  one_session w → one_session w'.
Proof.
  induction evs as [|e rest IH]; intros w w' effs;
    cbn [run clicks_wait_for_device].
  - by intros [= <- <-].
  - destruct (step e w) as [[w1 e1]|] eqn:Hs; [|done].
    destruct (run rest w1) as [[w2 e2]|] eqn:Hr; [|done].
    intros [= <- <-] [Hnow Hlater]%andb_prop Hone.
    eapply IH; [done..|].
    eapply moves_one_session; eauto using step_moves.
    intros ->. by apply Nat.eqb_eq.
Qed.

(** C5 (the code at the failing input).  The button is clicked three times
    before the browser answers the first device request; the second click
    finds no recorder to stop and the third asks for the device again.  When
    both requests are granted two recorders record at once, and
    [mediaRecorder] refers to the second only: the next click stops that one,
    switches the mode off and leaves recorder 0 recording. *)
Theorem impatient_clicks_leave_two_recorders :
  run impatient_trace initial_world = Some (impatient_world, impatient_effects)
  ∧ length (List.filter is_device_request impatient_effects) = 2
  ∧ recorders impatient_world = [true; true]
  ∧ mediaRecorder (globals impatient_world) = Some 1
  ∧ run [RealTimeClicked] impatient_world
    = Some (impatient_stopped,
            [ButtonText RealTimeButton "Start Real-Time Detection";
             RecorderStop 1])
  ∧ isRealTimeMode (globals impatient_stopped) = false
  ∧ recorders impatient_stopped = [true; false].
Proof.
  split; [vm_compute; reflexivity|]. split; [reflexivity|].
  split; [reflexivity|]. split; [reflexivity|].
  split; [vm_compute; reflexivity|]. by split.
Qed.

(** What the guard in the toggle does ensure.  While the mode is marked on,
    a click runs [stopRealTimeDetection], requests no device and creates no
    recorder; [startRealTimeDetection] itself requests the device on every
    call.  As long as the button is not clicked while a device request is
    pending, at most one recorder records in any world the event loop
    reaches, and it is the current one. *)
Theorem one_capture_session_through_toggle evs w effs :
  run evs initial_world = Some (w, effs) →
  (clicks_wait_for_device evs initial_world = true →
   ∀ r, recorders w !! r = Some true → mediaRecorder (globals w) = Some r)
  ∧ (isRealTimeMode (globals w) = true →
     toggleRealTimeMode w = stopRealTimeDetection w
     ∧ (GetUserMedia ∉ effects_of (toggleRealTimeMode w))
     ∧ micRequests (world_of (toggleRealTimeMode w)) = micRequests w
     ∧ length (recorders (world_of (toggleRealTimeMode w)))
       = length (recorders w))
  ∧ (GetUserMedia ∈ effects_of (startRealTimeDetection w))
  ∧ micRequests (world_of (startRealTimeDetection w)) = S (micRequests w).
Proof.
  intros Hr. split; [|split; [|split]].
  - intros Hwait r Hrec.
    assert (one_session initial_world) as Hinit.
    { split; [|cbn; lia]. intros r' Hr'. done. }
    destruct (run_one_session _ _ _ _ Hr Hwait Hinit) as [Hone _].
    by destruct (Hone r Hrec).
  - intros Hon. rewrite toggleRealTimeMode_run, Hon.
    split; [done|]. rewrite stopRealTimeDetection_run. cbn.
    destruct (mediaRecorder (globals w)); cbn;
      rewrite ?length_insert; (split; [|done]);
      intros Hin; repeat (apply elem_of_cons in Hin as [Hin|Hin]; [done|]);
      by apply elem_of_nil in Hin.
  - rewrite startRealTimeDetection_run. cbn. set_solver.
  - by rewrite startRealTimeDetection_run.
Qed.

Lemma one_capture_session_through_toggle_witness :
  toggleRealTimeMode capturing_world = stopRealTimeDetection capturing_world
  ∧ (GetUserMedia ∉ effects_of (toggleRealTimeMode capturing_world)).
Proof.
  destruct (one_capture_session_through_toggle
              [RealTimeClicked; MicGranted] capturing_world
              [ButtonText RealTimeButton "Stop Real-Time Detection";
               GetUserMedia; RecorderStart 0 1000])
    as (_ & Htoggle & _).
  - vm_compute; reflexivity.
  - destruct Htoggle as (H1 & H2 & _); [reflexivity|]. by split.
Defined.

(** *** C6: stopping twice *)

(** [mediaRecorder] is never reset: the second [stop()] calls
    [mediaRecorder.stop()] on recorder 0 again. *)
Lemma second_stop_calls_recorder :
  effects_of (stopRealTimeDetection
                (world_of (stopRealTimeDetection capturing_world)))
    = [ButtonText RealTimeButton "Start Real-Time Detection"; RecorderStop 0]
  ∧ ¬ second_stop_is_silent capturing_world.
Proof.
  split; [reflexivity|].
  intros [_ H]. apply (H 0). vm_compute. set_solver.
Qed.

(** C6 (as amended).  From any world, a second [stopRealTimeDetection]
    leaves the world the first one left and returns normally, and it makes
    the same calls as the first: when a recorder was ever created, its
    [stop()] is called again; when none was, only the button is relabelled. *)
Theorem stop_twice_same_world w :
  let w1 := world_of (stopRealTimeDetection w) in
  world_of (stopRealTimeDetection w1) = w1
  ∧ outcome (stopRealTimeDetection w1) = inr ()
  ∧ effects_of (stopRealTimeDetection w1) = effects_of (stopRealTimeDetection w)
  ∧ effects_of (stopRealTimeDetection w)
    = ButtonText RealTimeButton "Start Real-Time Detection"
      :: match mediaRecorder (globals w) with
         | Some r => [RecorderStop r]
         | None => []
         end.
Proof.
  cbn zeta. rewrite !stopRealTimeDetection_run.
  destruct w as [[de pr lo er au fn pl vo mu hi rt ws mr] pe ns mi re np nu].
  destruct mr as [r|]; cbn; [|done].
  unfold with_recorders, with_globals, set_isRealTimeMode; cbn.
  by rewrite list_insert_insert_eq.
Qed.

(** *** C7: the microphone is refused *)

(** C7 (the code at the failing input).  Real-time mode is switched on and
    the device request is rejected: the toast is shown, and the world is
    left with [isRealTimeMode] still [true] and the button still labelled
    "Stop Real-Time Detection", although nothing is being captured. *)
Theorem denied_microphone_leaves_mode_on err :
  run [RealTimeClicked; MicDenied err] initial_world
    = Some (with_globals (set_isRealTimeMode true initial_globals) initial_world,
            [ButtonText RealTimeButton "Stop Real-Time Detection"; GetUserMedia;
             ConsoleError "Error accessing microphone:" err;
             ToastError "Unable to access microphone"])
  ∧ isRealTimeMode
      (globals (with_globals (set_isRealTimeMode true initial_globals)
                  initial_world)) = true
  ∧ recorders (with_globals (set_isRealTimeMode true initial_globals)
                 initial_world) = [].
Proof. done. Qed.

(** *** C8: failed submissions *)




(** *** C9: what a failed upload leaves behind *)



(** A failed upload from start to end: the name is the new file's, nothing
    else of the results has moved, and the flag is off again. *)
Example failed_upload_run :
  ∃ w effs,
    run [FileChosen (choose sad_wav);
         FetchSettled 3 (Responded false (inl "Bad Gateway")) 30]
        race_world = Some (w, effs)
    ∧ fileName (globals w) = "sad.wav"
    ∧ results w = results race_world
    ∧ error (globals w) = Some "Failed to analyze audio"
    ∧ isLoading (globals w) = false.
Proof.
  eexists _, _. split; [vm_compute; reflexivity|]. done.
Qed.

(** *** C10: mute *)

(** C10.  [toggleMute] always returns normally; two calls give back the
    world they started from, the muted flag included; and the player is
    called only when there is one, so without loaded audio the only call is
    the relabelling of the button. *)
Theorem mute_twice_restores w :
  world_of (toggleMute (world_of (toggleMute w))) = w
  ∧ isMuted (globals (world_of (toggleMute (world_of (toggleMute w)))))
    = isMuted (globals w)
  ∧ isMuted (globals (world_of (toggleMute w))) = negb (isMuted (globals w))
  ∧ outcome (toggleMute w) = inr ()
  ∧ effects_of (toggleMute w)
    = match wavesurfer (globals w) with
      | Some h => [PlayerSetMute h (negb (isMuted (globals w)))]
      | None => []
      end
      ++ [ButtonText MuteButton
            (if negb (isMuted (globals w)) then "Unmute" else "Mute")].
Proof.
  rewrite !toggleMute_run.
  destruct w as [[de pr lo er au fn pl vo mu hi rt ws mr] pe ns mi re np nu].
  cbn. by rewrite negb_involutive.
Qed.

(** * Further properties of the handlers *)

(** ** No exception leaves a handler *)





Lemma has_lone_surrogate_cons c d rest :
  has_lone_surrogate (String c (String d rest))
  = starts_surrogate c d || has_lone_surrogate (String d rest).
Proof. reflexivity. Qed.

Lemma has_lone_surrogate_skip c rest :
  nat_of_ascii c ≠ 237 →
  has_lone_surrogate (String c rest) = has_lone_surrogate rest.
Proof.
  intros Hc%Nat.eqb_neq. destruct rest as [|d rest]; [done|].
  rewrite has_lone_surrogate_cons. unfold starts_surrogate. by rewrite Hc.
Qed.

Lemma full_stop_starts_no_surrogate c : starts_surrogate c "." = false.
Proof.
  unfold starts_surrogate.
  change (160 <=? nat_of_ascii ".") with false. by rewrite andb_false_r.
Qed.

Lemma has_lone_surrogate_suffix emo :
  has_lone_surrogate (emo +:+ ". Try it yourself!") = has_lone_surrogate emo.
Proof.
  induction emo as [|c emo IH]; [reflexivity|].
  change (String c emo +:+ ". Try it yourself!")
    with (String c (emo +:+ ". Try it yourself!")).
  destruct emo as [|d emo'].
  - change ("" +:+ ". Try it yourself!") with (String "." " Try it yourself!").
    rewrite has_lone_surrogate_cons, full_stop_starts_no_surrogate.
    reflexivity.
  - change (String d emo' +:+ ". Try it yourself!")
      with (String d (emo' +:+ ". Try it yourself!")) in *.
    by rewrite !has_lone_surrogate_cons, IH.
Qed.

(** The text of line 323 holds a lone surrogate exactly when the emotion
    does. *)
Lemma share_text_surrogate emo :
  has_lone_surrogate (share_text emo) = has_lone_surrogate emo.
Proof.
  unfold share_text.
  rewrite <- (has_lone_surrogate_suffix emo).
  generalize (emo +:+ ". Try it yourself!"). intros rest.
  cbv [String.append].
  by rewrite !has_lone_surrogate_skip by (vm_compute; lia).
Qed.








(** The conditions are needed.  One successful upload whose body names an
    emotion without probabilities ends in an exception that leaves the
    handler, thrown by [displayResults] in the [finally] block. *)
Example bare_answer_escapes :
  ∃ w effs,
    run [FileChosen (choose happy_wav); FetchSettled 1 (ok_with bare_happy) 4]
        initial_world = Some (w, effs)
    ∧ last effs = Some (Uncaught "Cannot convert undefined or null to object")
    ∧ isLoading (globals w) = false.
Proof. eexists _, _. split; [vm_compute; reflexivity|]. by split. Qed.

(** In a page where no other script defines [handleDragOver], [init]
    throws at its first statement.  (For the lone surrogate, see the
    section on sharing.) *)
Example init_escapes_on_bare_page :
  init_ready bare_page = false
  ∧ run [DomContentLoaded bare_page] initial_world
    = Some (initial_world,
            [Uncaught "ReferenceError: handleDragOver is not defined"]).
Proof. by split. Qed.

(** ** The history is append-only *)

(** X2.  From any world and over any events, [emotionHistory] only grows at
    its end: what it held before is a prefix of what it holds after, and it
    has grown by one entry per successful response. *)
Theorem history_only_grows evs w w' effs :
  run evs w = Some (w', effs) →
  emotionHistory (globals w) `prefix_of` emotionHistory (globals w')
  ∧ length (emotionHistory (globals w'))
    = length (emotionHistory (globals w)) + length (resolved evs).
Proof.
  intros Hr. destruct (run_current _ _ _ _ Hr) as (-> & _).
  split; [by eexists|]. by rewrite length_app, length_map.
Qed.

Lemma history_only_grows_witness :
  emotionHistory (globals overlap_world)
    `prefix_of` emotionHistory (globals overlap_finished)
  ∧ length (emotionHistory (globals overlap_finished)) = 1 + 1.
Proof.
  apply (history_only_grows second_answer overlap_world overlap_finished
           second_answer_effects).
  vm_compute; reflexivity.
Defined.

(** ** The waveform player *)

Lemma updateUI_refreshed w : world_of (updateUI w) = refreshed w.
Proof.
  destruct w as [[de pr lo er au fn pl vo mu hi rt ws mr] pe ns mi re np nu].
  unfold refreshed.
  destruct au, ws, pr, de as [[|a s]|]; reflexivity.
Qed.

Lemma updateUI_refresh_calls w :
  List.filter touches_player (effects_of (updateUI w)) = refresh_calls w.
Proof.
  destruct w as [[de pr lo er au fn pl vo mu hi rt ws mr] pe ns mi re np nu].
  unfold refresh_calls.
  destruct au, ws, pr, de as [[|a s]|]; reflexivity.
Qed.

Lemma refreshed_audio w :
  audioData (globals (refreshed w)) = audioData (globals w).
Proof. unfold refreshed. by destruct (audioData (globals w)) eqn:E. Qed.

Lemma live_players_filter effs : ∀ live,
  live_players live effs = live_players live (List.filter touches_player effs).
Proof.
  induction effs as [|e rest IH]; intros live; [done|].
  destruct e as [| | | | | | | | | | | | | | |[]| | | | |]; cbn; auto.
Qed.

Lemma share_calls_off_player calls :
  List.filter touches_player (map Share calls) = [].
Proof. by induction calls. Qed.

Lemma listeners_off_player ls :
  List.filter touches_player (map ListenerAdded ls) = [].
Proof. by induction ls. Qed.

Lemma live_players_app e1 e2 : ∀ live,
  live_players live (e1 ++ e2) = live_players (live_players live e1) e2.
Proof.
  induction e1 as [|e rest IH]; intros live; [done|].
  destruct e as [| | | | | | | | | | | | | | |[]| | | | |]; cbn; auto.
Qed.

(** The player calls of one step, and where it leaves the player and the
    loaded audio. *)
Lemma step_player e w w' effs :
  step e w = Some (w', effs) →
  List.filter touches_player effs = player_calls e w
  ∧ (wavesurfer (globals w'), nextPlayer w') = player_after e w
  ∧ audioData (globals w') = audio_after e w.
Proof.
  unfold step, dispatch, player_calls, player_after, audio_after, ui_world.
  destruct e as [ev| | | |err|r blob|seq o now
                 | |parsed|href canShare|page| |playing].
  - destruct (chosen_file ev) as [file|] eqn:Hf.
    + destruct (is_audio file) eqn:Ha.
      * rewrite (handleFileUpload_accept _ _ _ Hf Ha). cbn zeta.
        pose proof (updateUI_refresh_calls (upload_started file w)) as Hcalls.
        pose proof (updateUI_refreshed (upload_started file w)) as Hw.
        destruct (outcome _); intros [= <- <-]; rewrite Hw.
        all: rewrite ?List.filter_app, ?Hcalls; cbn; rewrite ?app_nil_r.
        all: split; [done|].
        all: by rewrite ?refreshed_audio.
      * rewrite (handleFileUpload_reject _ _ _ Hf Ha). by intros [= <- <-].
    + rewrite (handleFileUpload_none _ _ Hf). by intros [= <- <-].
  - rewrite toggleMute_run. cbn. intros [= <- <-].
    destruct (wavesurfer (globals w)) eqn:E; cbn; by rewrite ?E.
  - rewrite toggleRealTimeMode_run.
    destruct (isRealTimeMode (globals w)).
    + rewrite stopRealTimeDetection_run. cbn.
      destruct (mediaRecorder (globals w)); by intros [= <- <-].
    + rewrite startRealTimeDetection_run. by intros [= <- <-].
  - destruct (micRequests w); [done|].
    rewrite onStream_run. cbn. by intros [= <- <-].
  - destruct (micRequests w); [done|].
    rewrite onStreamError_run. by intros [= <- <-].
  - destruct (recorders w !! r); [|done].
    rewrite handleRealTimeAudioData_run. by intros [= <- <-].
  - destruct (pending w !! seq) as [[file|blob]|]; [| |done].
    + rewrite handleFileUpload_resume_run. cbn zeta. fold (forget seq w).
      pose proof (updateUI_refresh_calls
                    (upload_settled file o now (forget seq w))) as Hcalls.
      pose proof (updateUI_refreshed
                    (upload_settled file o now (forget seq w))) as Hw.
      assert (List.filter touches_player (upload_notice o) = []) as Hn
        by (unfold upload_notice; by destruct (failure o)).
      destruct (outcome _); intros [= <- <-]; rewrite Hw;
        rewrite !List.filter_app, ?Hcalls, ?Hn; cbn; rewrite ?app_nil_r;
        (split; [done|]); by rewrite refreshed_audio.
    + destruct (answer_or_failure o) as [(data & Ha & _ & ->)|(msg & Ha & Hf)].
      * rewrite handleRealTimeAudioData_resume_ok. cbn zeta. fold (forget seq w).
        pose proof (updateUI_refresh_calls
                      (chunk_answered data now (forget seq w))) as Hcalls.
        pose proof (updateUI_refreshed
                      (chunk_answered data now (forget seq w))) as Hw.
        destruct (outcome _); intros [= <- <-]; rewrite Hw;
          rewrite ?List.filter_app, ?Hcalls; cbn; rewrite ?app_nil_r;
          (split; [done|]); by rewrite refreshed_audio.
      * rewrite (handleRealTimeAudioData_resume_fail _ _ _ _ Hf). rewrite Ha.
        by intros [= <- <-].
  - unfold togglePlayPause_handler, togglePlayPause.
    destruct (wavesurfer (globals w)) eqn:E; cbn; intros [= <- <-]; cbn;
      by rewrite ?E, ?with_globals_id.
  - rewrite handleVolumeChange_run. intros [= <- <-].
    destruct (wavesurfer (globals w)) eqn:E; cbn; by rewrite ?E.
  - unfold shareResults_handler.
    destruct (shareResults _ _ _) as [[x|] calls]; intros [= <- <-];
      rewrite ?List.filter_app, share_calls_off_player;
      by destruct (wavesurfer (globals w)).
  - unfold init_handler.
    destruct (init page []) as [[x|] ls]; intros [= <- <-];
      rewrite ?List.filter_app, listeners_off_player;
      by destruct (wavesurfer (globals w)).
  - intros [= <- <-]. by destruct (wavesurfer (globals w)).
  - destruct (wavesurfer (globals w)) eqn:E; [|done].
    destruct playing; intros [= <- <-]; cbn; by rewrite ?E.
Qed.

Lemma ui_world_player e w w1 :
  ui_world e w = Some w1 →
  wavesurfer (globals w1) = wavesurfer (globals w)
  ∧ nextPlayer w1 = nextPlayer w
  ∧ isMuted (globals w1) = isMuted (globals w)
  ∧ (is_Some (audioData (globals w)) → is_Some (audioData (globals w1))).
Proof.
  unfold ui_world. destruct e as [ev| | | |err|r blob|seq o now
                 | |parsed|href canShare|page| |playing]; try done.
  - destruct (chosen_file ev) as [file|]; [|done].
    destruct (is_audio file); [|done]. by intros [= <-].
  - destruct (pending w !! seq) as [[file|blob]|]; [| |done].
    + intros [= <-]. unfold upload_settled, forget.
      by destruct (answer_or_failure o) as [(d & -> & _)|(m & -> & ->)].
    + destruct (answer o); [|done]. by intros [= <-].
Qed.

Lemma step_player_inv e w w' effs :
  step e w = Some (w', effs) →
  player_matches_audio w →
  player_matches_audio w'
  ∧ live_players (player_of (globals w)) effs = player_of (globals w').
Proof.
  intros Hs [Hiff Hfresh].
  destruct (step_player _ _ _ _ Hs) as (Hcalls & Hafter & Haudio).
  rewrite live_players_filter, Hcalls.
  unfold player_calls, player_after, audio_after, player_matches_audio,
    player_of in *.
  destruct (ui_world e w) as [w1|] eqn:Hui.
  - destruct (ui_world_player _ _ _ Hui) as (Hws & Hnp & _ & Hau).
    injection Hafter as Hws' Hnp'. rewrite Hws', Hnp', Haudio.
    unfold refreshed, refresh_calls. rewrite Hws, Hnp.
    destruct (audioData (globals w1)) as [url|] eqn:Hurl; cbn.
    + split; [split; [done|intros h [= <-]; lia]|].
      destruct (wavesurfer (globals w)) as [old|]; cbn; [|done].
      by rewrite Nat.eqb_refl.
    + rewrite Hws.
      assert (wavesurfer (globals w) = None) as ->.
      { destruct (wavesurfer (globals w)) eqn:E; [|done].
        destruct Hiff as [Hiff _]. destruct Hau as [? [=]]. by apply Hiff. }
      split; [split; [done|done]|done].
  - injection Hafter as -> ->. rewrite Haudio. split; [done|].
    destruct e; try done; by destruct (wavesurfer (globals w)).
Qed.

Lemma run_player_inv evs : ∀ w w' effs,
  run evs w = Some (w', effs) →
  player_matches_audio w →
  player_matches_audio w'
  ∧ live_players (player_of (globals w)) effs = player_of (globals w').
Proof.
  induction evs as [|e rest IH]; intros w w' effs; cbn [run].
  - by intros [= <- <-].
  - destruct (step e w) as [[w1 e1]|] eqn:Hs; [|done].
    destruct (run rest w1) as [[w2 e2]|] eqn:Hr; [|done].
    intros [= <- <-] Hinv.
    destruct (step_player_inv _ _ _ _ Hs Hinv) as [Hinv1 Hlive1].
    destruct (IH _ _ _ Hr Hinv1) as [Hinv2 Hlive2].
    split; [done|]. by rewrite live_players_app, Hlive1.
Qed.

Lemma initial_player : player_matches_audio initial_world.
Proof. split; [|done]. by split; intros [? [=]]. Qed.







(** The check tells the two orders apart. *)
Example create_before_destroy_is_seen :
  never_two_alive [0] [PlayerLoad 1 (Some 0); PlayerDestroy 0] = false
  ∧ never_two_alive [0] [PlayerDestroy 0; PlayerLoad 1 (Some 0)] = true.
Proof. by split. Qed.

Lemma moves_isMuted w e w' :
  moves w e w' → e ≠ MuteClicked →
  isMuted (globals w') = isMuted (globals w).
Proof.
  destruct 1; intros Hne; try done.
  - unfold stopped. by destruct (mediaRecorder (globals w)).
  - unfold ui_touch, upload_settled, forget.
    by destruct (answer_or_failure o) as [(d & -> & _)|(m & -> & ->)].
Qed.

(** X4.  Once audio is loaded, every handler that refreshes the page (an
    accepted file choice, an upload that settles, a chunk that is answered)
    destroys the current player and creates a new one, loaded afresh; the new
    player receives no [setMute] call although [isMuted] keeps its value. *)
Theorem refresh_replaces_player evs w effs0 e w' effs url :
  run evs initial_world = Some (w, effs0) →
  audioData (globals w) = Some url →
  is_Some (ui_world e w) →
  step e w = Some (w', effs) →
  ∃ h,
    wavesurfer (globals w) = Some h
    ∧ PlayerDestroy h ∈ effs
    ∧ wavesurfer (globals w') = Some (nextPlayer w)
    ∧ nextPlayer w ≠ h
    ∧ PlayerLoad (nextPlayer w) (audioData (globals w')) ∈ effs
    ∧ (∀ k m, PlayerSetMute k m ∉ effs)
    ∧ isMuted (globals w') = isMuted (globals w).
Proof.
  intros Hr Hurl [w1 Hui] Hs.
  destruct (run_player_inv _ _ _ _ Hr initial_player) as [[Hiff Hfresh] _].
  destruct Hiff as [_ Hplayer].
  destruct (Hplayer (ex_intro _ url Hurl)) as [h Hh].
  pose proof (Hfresh _ Hh) as Hlt. clear Hfresh Hplayer.
  destruct (step_player _ _ _ _ Hs) as (Hcalls & Hafter & Haudio).
  destruct (ui_world_player _ _ _ Hui) as (Hws & Hnp & _ & Hau).
  destruct (Hau (ex_intro _ url Hurl)) as [url1 Hurl1].
  unfold player_calls, player_after, audio_after in *. rewrite Hui in *.
  unfold refreshed, refresh_calls in *. rewrite Hurl1, Hws, Hnp, Hh in *.
  cbn in Hafter, Hcalls. injection Hafter as Hws' Hnp'.
  assert (∀ c, c ∈ effs → touches_player c = true →
               c = PlayerDestroy h ∨ c = PlayerLoad (nextPlayer w) (Some url1))
    as Honly.
  { intros c Hc Ht.
    assert (In c (List.filter touches_player effs)) as Hin
      by (apply List.filter_In; split; [by apply list_elem_of_In|done]).
    rewrite Hcalls in Hin. cbn in Hin. destruct Hin as [<-|[<-|[]]]; auto. }
  assert (∀ c, In c [PlayerDestroy h; PlayerLoad (nextPlayer w) (Some url1)] →
               c ∈ effs) as Hmade.
  { intros c Hc. rewrite <- Hcalls in Hc. apply List.filter_In in Hc as [Hc _].
    by apply list_elem_of_In. }
  exists h. split; [done|]. split; [apply Hmade; cbn; auto|].
  split; [done|]. split; [lia|].
  split; [rewrite Haudio; apply Hmade; cbn; auto|]. split.
  - intros k m Hin. by destruct (Honly _ Hin eq_refl).
  - eapply moves_isMuted; [eauto using step_moves|].
    intros ->. done.
Qed.

Lemma refresh_replaces_player_witness :
  ∃ w' effs h,
    step (FileChosen (choose sad_wav)) race_world = Some (w', effs)
    ∧ wavesurfer (globals race_world) = Some h
    ∧ PlayerDestroy h ∈ effs
    ∧ wavesurfer (globals w') = Some 1.
Proof.
  destruct (refresh_replaces_player race_trace race_world race_effects
              (FileChosen (choose sad_wav))
              (send (UploadFile sad_wav)
                 (refreshed (upload_started sad_wav race_world)))
              [LoadingDisplay true; ErrorText ""; PlayerDestroy 0;
               PlayerLoad 1 (Some 0); VisualizerInit 1;
               DisplayResults "happy" [("happy", 3 # 4); ("neutral", 1 # 4)]
                 (emotionHistory (globals race_world));
               Fetch 3 (UploadFile sad_wav)] 0)
    as (h & Hh & Hd & Hw & _).
  - vm_compute; reflexivity.
  - reflexivity.
  - by eexists.
  - vm_compute; reflexivity.
  - eexists _, _, h. split; [vm_compute; reflexivity|]. done.
Defined.

(** ** The file name *)

Lemma moves_fileName w e w' :
  moves w e w' →
  fileName (globals w')
  = match chosen_audio [e] with
    | file :: _ => name file
    | [] => fileName (globals w)
    end.
Proof.
  destruct 1; cbn; rewrite ?H, ?H0; try done.
  - unfold stopped. by destruct (mediaRecorder (globals w)).
  - unfold upload_settled, forget.
    by destruct (answer_or_failure o) as [(d & -> & _)|(m & -> & ->)].
Qed.

Lemma chosen_audio_cons e rest :
  chosen_audio (e :: rest) = chosen_audio [e] ++ chosen_audio rest.
Proof.
  destruct e as [ev| | | | | | | | | | | |]; cbn; try done.
  destruct (chosen_file ev) as [file|]; [|done]. by destruct (is_audio file).
Qed.

Lemma chosen_audio_single e :
  chosen_audio [e] = [] ∨ ∃ file, chosen_audio [e] = [file].
Proof.
  destruct e as [ev| | | | | | | | | | | |]; cbn; auto.
  destruct (chosen_file ev) as [file|]; [|auto].
  destruct (is_audio file); eauto.
Qed.

Lemma run_fileName evs : ∀ w w' effs,
  run evs w = Some (w', effs) →
  fileName (globals w')
  = match last (chosen_audio evs) with
    | Some file => name file
    | None => fileName (globals w)
    end.
Proof.
  induction evs as [|e rest IH]; intros w w' effs; cbn [run].
  - by intros [= <- <-].
  - destruct (step e w) as [[w1 e1]|] eqn:Hs; [|done].
    destruct (run rest w1) as [[w2 e2]|] eqn:Hr; [|done].
    intros [= <- <-]. rewrite (IH _ _ _ Hr).
    rewrite (moves_fileName _ _ _ (step_moves _ _ _ _ Hs)).
    rewrite (chosen_audio_cons e rest).
    destruct (chosen_audio rest) as [|f l] eqn:Hrest using rev_ind.
    + rewrite app_nil_r.
      by destruct (chosen_audio_single e) as [->|[f ->]].
    + by rewrite app_assoc, !last_snoc.
Qed.

(** X5.  [fileName] always holds the name of the audio file that was chosen
    last (the empty string before the first one), whether or not its request
    has been answered, has failed, or an earlier upload is answered later. *)
Theorem file_name_is_last_chosen evs w effs :
  run evs initial_world = Some (w, effs) →
  fileName (globals w) = default "" (name <$> last (chosen_audio evs)).
Proof.
  intros Hr. rewrite (run_fileName _ _ _ _ Hr).
  by destruct (last (chosen_audio evs)).
Qed.

Lemma file_name_is_last_chosen_witness :
  fileName (globals overlap_world) = "sad.wav"
  ∧ audioData (globals overlap_world) = Some 0.
Proof.
  split; [|reflexivity].
  apply (file_name_is_last_chosen overlap_trace overlap_world overlap_effects).
  vm_compute; reflexivity.
Defined.

(** ** The volume *)

Lemma moves_volume w e w' :
  moves w e w' →
  volume (globals w')
  = match volume_inputs [e] with
    | parsed :: _ => parsed
    | [] => volume (globals w)
    end.
Proof.
  destruct 1; cbn; try done.
  - unfold stopped. by destruct (mediaRecorder (globals w)).
  - unfold upload_settled, forget.
    by destruct (answer_or_failure o) as [(d & -> & _)|(m & -> & ->)].
Qed.

Lemma volume_inputs_cons e rest :
  volume_inputs (e :: rest) = volume_inputs [e] ++ volume_inputs rest.
Proof. by destruct e. Qed.

Lemma run_volume evs : ∀ w w' effs,
  run evs w = Some (w', effs) →
  volume (globals w') = default (volume (globals w)) (last (volume_inputs evs)).
Proof.
  induction evs as [|e rest IH]; intros w w' effs; cbn [run].
  - by intros [= <- <-].
  - destruct (step e w) as [[w1 e1]|] eqn:Hs; [|done].
    destruct (run rest w1) as [[w2 e2]|] eqn:Hr; [|done].
    intros [= <- <-]. rewrite (IH _ _ _ Hr).
    rewrite (moves_volume _ _ _ (step_moves _ _ _ _ Hs)).
    rewrite (volume_inputs_cons e rest).
    destruct (volume_inputs rest) as [|v l] eqn:Hrest using rev_ind.
    + rewrite app_nil_r. by destruct e.
    + by rewrite app_assoc, !last_snoc.
Qed.

Lemma step_set_volume e w w' effs h v :
  step e w = Some (w', effs) →
  PlayerSetVolume h v ∈ effs →
  e = VolumeInput v ∧ wavesurfer (globals w) = Some h.
Proof.
  intros Hs Hin.
  destruct (step_player _ _ _ _ Hs) as (Hcalls & _ & _).
  assert (PlayerSetVolume h v ∈ player_calls e w) as Hcall.
  { rewrite <- Hcalls. apply list_elem_of_In, filter_In.
    split; [by apply list_elem_of_In|done]. }
  unfold player_calls in Hcall.
  destruct (ui_world e w) as [w1|].
  - unfold refresh_calls in Hcall.
    destruct (audioData (globals w1)); [|by apply elem_of_nil in Hcall].
    destruct (wavesurfer (globals w1));
      repeat (apply elem_of_cons in Hcall as [[=]|Hcall]);
      by apply elem_of_nil in Hcall.
  - destruct e, (wavesurfer (globals w)) as [h'|];
      try (by apply elem_of_nil in Hcall);
      apply elem_of_cons in Hcall as [[=]|Hcall];
      try (by apply elem_of_nil in Hcall).
    by subst.
Qed.

(** X19.  The volume the user chose is not carried over to a new player.
    [volume] always holds what the last volume change parsed ([1] before
    the first one, [NaN] included), but [setVolume] is called by the volume
    change only, on the player of that moment: no other handler calls it,
    so the player that [updateUI] creates after the next upload or chunk
    answer is never told the volume. *)
Theorem volume_not_carried_over evs w effs :
  run evs initial_world = Some (w, effs) →
  volume (globals w) = default (Some 1%Q) (last (volume_inputs evs))
  ∧ ∀ e w' effs', step e w = Some (w', effs') →
      (∀ h v, PlayerSetVolume h v ∈ effs' →
              e = VolumeInput v ∧ wavesurfer (globals w) = Some h)
      ∧ (∀ w1, ui_world e w = Some w1 →
               wavesurfer (globals w') = wavesurfer (globals (refreshed w1))
               ∧ List.filter is_set_volume effs' = []).
Proof.
  intros Hr. split; [exact (run_volume _ _ _ _ Hr)|].
  intros e w' effs' Hs. split.
  - intros h v Hin. exact (step_set_volume _ _ _ _ _ _ Hs Hin).
  - intros w1 Hui.
    destruct (step_player _ _ _ _ Hs) as (_ & Hafter & _).
    unfold player_after in Hafter. rewrite Hui in Hafter.
    injection Hafter as -> _. split; [done|].
    destruct (List.filter is_set_volume effs') as [|c l] eqn:Hf; [done|].
    assert (c ∈ List.filter is_set_volume effs') as Hc
      by (rewrite Hf; apply elem_of_cons; by left).
    apply list_elem_of_In, filter_In in Hc as [Hc%list_elem_of_In Hset].
    destruct c; try done.
    destruct (step_set_volume _ _ _ _ _ _ Hs Hc) as [-> _]. done.
Qed.

(** The volume is halved on player 0; players 1 and 2, created by the
    second upload, get no [setVolume]. *)
Lemma volume_not_carried_over_witness :
  volume (globals turned_down_world) = Some (1 # 2)%Q
  ∧ wavesurfer (globals turned_down_world) = Some 2
  ∧ List.filter is_set_volume turned_down_effects
    = [PlayerSetVolume 0 (Some (1 # 2)%Q)].
Proof.
  destruct (volume_not_carried_over turned_down_trace turned_down_world
              turned_down_effects) as [Hvol _].
  - vm_compute; reflexivity.
  - split; [exact Hvol|]. by split.
Defined.

(** ** Real-time capture *)

(** X6.  Two clicks on the real-time button in a row, from any world, bring
    [isRealTimeMode] back to what it was and both return normally; between
    them they ask for the microphone exactly once, so one more device
    request is pending afterwards. *)
Theorem two_clicks_request_device_once w :
  let r1 := toggleRealTimeMode w in
  let r2 := toggleRealTimeMode (world_of r1) in
  isRealTimeMode (globals (world_of r1)) = negb (isRealTimeMode (globals w))
  ∧ isRealTimeMode (globals (world_of r2)) = isRealTimeMode (globals w)
  ∧ outcome r1 = inr () ∧ outcome r2 = inr ()
  ∧ length (List.filter is_device_request (effects_of r1 ++ effects_of r2)) = 1
  ∧ micRequests (world_of r2) = S (micRequests w).
Proof.
  destruct w as [[de pr lo er au fn pl vo mu hi rt ws mr] pe ns mi re np nu].
  by destruct rt, mr.
Qed.

Lemma moves_recorders w e w' :
  moves w e w' →
  length (recorders w) ≤ length (recorders w')
  ∧ (∀ r, recorders w !! r = Some false → recorders w' !! r = Some false)
  ∧ (is_Some (mediaRecorder (globals w)) →
     is_Some (mediaRecorder (globals w'))).
Proof.
  destruct 1; try done.
  - (* stop *)
    unfold stopped.
    destruct (mediaRecorder (globals w)) as [c|] eqn:Hc; cbn; [|done].
    rewrite length_insert. split; [done|]. split; [|by rewrite Hc].
    intros r Hr. destruct (decide (c = r)) as [->|Hne].
    + apply list_lookup_insert_eq. by eapply lookup_lt_Some.
    + by rewrite list_lookup_insert_ne.
  - (* granted *)
    unfold recording; cbn. rewrite length_insert, length_app. cbn.
    split; [lia|]. split; [|by eexists].
    intros r Hr. pose proof (lookup_lt_Some _ _ _ Hr) as Hlt.
    rewrite list_lookup_insert_ne by lia. by rewrite lookup_app_l.
  - (* an upload settles *)
    unfold ui_touch, upload_settled, forget.
    by destruct (answer_or_failure o) as [(d & -> & _)|(m & -> & ->)].
Qed.

(** X7.  From any world and over any events: the script never drops a
    [MediaRecorder] it has created and never starts one again.  The list of
    recorders only grows, a recorder that is inactive stays inactive (each
    grant of the microphone makes a new one), and once [mediaRecorder] holds
    a recorder it is never [null] again. *)
Theorem recorders_are_never_restarted evs : ∀ w w' effs,
  run evs w = Some (w', effs) →
  length (recorders w) ≤ length (recorders w')
  ∧ (∀ r, recorders w !! r = Some false → recorders w' !! r = Some false)
  ∧ (is_Some (mediaRecorder (globals w)) →
     is_Some (mediaRecorder (globals w'))).
Proof.
  induction evs as [|e rest IH]; intros w w' effs; cbn [run].
  - by intros [= <- <-].
  - destruct (step e w) as [[w1 e1]|] eqn:Hs; [|done].
    destruct (run rest w1) as [[w2 e2]|] eqn:Hr; [|done].
    intros [= <- <-].
    destruct (moves_recorders _ _ _ (step_moves _ _ _ _ Hs)) as (H1 & H2 & H3).
    destruct (IH _ _ _ Hr) as (H4 & H5 & H6).
    split; [lia|]. split; auto.
Qed.

Lemma recorders_are_never_restarted_witness :
  ∃ w' effs,
    run [RealTimeClicked; RealTimeClicked; MicGranted] capturing_world
      = Some (w', effs)
    ∧ recorders w' = [false; true]
    ∧ recorders w' !! 0 = Some false.
Proof.
  eexists _, _. split; [vm_compute; reflexivity|]. split; [reflexivity|].
  eapply (recorders_are_never_restarted [RealTimeClicked; MicGranted]
            (stopped capturing_world)).
  - vm_compute; reflexivity.
  - reflexivity.
Defined.

(** X8.  As long as the real-time button is not clicked while a device
    request is pending: whenever real-time mode is off, and whenever a
    device request is pending, no recorder is recording.  So a click that
    stops real-time mode stops all recording. *)
Theorem nothing_records_while_off evs w effs :
  run evs initial_world = Some (w, effs) →
  clicks_wait_for_device evs initial_world = true →
  isRealTimeMode (globals w) = false ∨ 0 < micRequests w →
  ∀ r, recorders w !! r ≠ Some true.
Proof.
  intros Hr Hwait Hoff r Hrec.
  assert (one_session initial_world) as Hinit.
  { split; [|cbn; lia]. intros r' Hr'. done. }
  destruct (run_one_session _ _ _ _ Hr Hwait Hinit) as [Hone _].
  destruct (Hone r Hrec) as (_ & Hon & Hzero).
  destruct Hoff; [congruence|lia].
Qed.

Lemma nothing_records_while_off_witness :
  ∃ w effs,
    run [RealTimeClicked; MicGranted; RealTimeClicked] initial_world
      = Some (w, effs)
    ∧ recorders w = [false]
    ∧ recorders w !! 0 ≠ Some true.
Proof.
  eexists _, _. split; [vm_compute; reflexivity|]. split; [reflexivity|].
  eapply (nothing_records_while_off
            [RealTimeClicked; MicGranted; RealTimeClicked]).
  - vm_compute; reflexivity.
  - vm_compute; reflexivity.
  - left. reflexivity.
Defined.

(** ** What a response touches *)

(** X9.  The answer to a real-time chunk, good or bad, touches nothing of
    the upload: the loading flag, the error, the loaded audio, the file
    name, the playback flag, the volume and the mute flag, the real-time
    flag and the recorders stay as they are; its request leaves the table of requests in flight;
    and a failed one changes no variable at all. *)
Theorem chunk_answer_leaves_upload_alone w seq blob o now w' effs :
  pending w !! seq = Some (CaptureChunk blob) →
  step (FetchSettled seq o now) w = Some (w', effs) →
  upload_side w' = upload_side w
  ∧ pending w' = delete seq (pending w)
  ∧ (answer o = None → globals w' = globals w).
Proof.
  intros Hp Hs. apply step_moves in Hs.
  inversion Hs; subst; try congruence.
  - split; [done|]. split; [done|]. congruence.
  - done.
Qed.

Lemma chunk_answer_leaves_upload_alone_witness :
  ∃ w' effs,
    step (FetchSettled 1 (ok_with neutral) 7) chunk_sent_world = Some (w', effs)
    ∧ detectedEmotion (globals w') = Some "neutral"
    ∧ upload_side w' = upload_side chunk_sent_world.
Proof.
  eexists _, _. split; [vm_compute; reflexivity|]. split; [reflexivity|].
  eapply (chunk_answer_leaves_upload_alone chunk_sent_world 1
            {| chunk_no := 0 |} (ok_with neutral) 7).
  - vm_compute; reflexivity.
  - vm_compute; reflexivity.
Defined.



(** ** Play and pause *)

(** X11.  Without a player [togglePlayPause] does nothing at all: no
    variable changes and no call is made.  With a player it calls
    [playPause()] on it once, negates [isPlaying] and labels the button by
    the new value; a second click gives back the variables of before the
    first. *)
Theorem play_pause_needs_player s :
  (wavesurfer s = None → togglePlayPause s = (s, []))
  ∧ (∀ h, wavesurfer s = Some h →
       (togglePlayPause s).2
         = [PlayPause h; PlayPauseLabel (if isPlaying s then "Play" else "Pause")]
       ∧ isPlaying (togglePlayPause s).1 = negb (isPlaying s)
       ∧ (togglePlayPause (togglePlayPause s).1).1 = s).
Proof.
  destruct s as [de pr lo er au fn pl vo mu hi rt ws mr].
  unfold togglePlayPause; cbn. split; [by intros ->|].
  intros h ->. cbn. rewrite negb_involutive. by destruct pl.
Qed.

Lemma play_pause_needs_player_witness :
  togglePlayPause initial_globals = (initial_globals, [])
  ∧ (togglePlayPause (globals race_world)).2
    = [PlayPause 0; PlayPauseLabel "Pause"].
Proof.
  destruct (play_pause_needs_player initial_globals) as [Hnone _].
  destruct (play_pause_needs_player (globals race_world)) as [_ Hsome].
  split; [apply Hnone; reflexivity|].
  destruct (Hsome 0) as (Hcalls & _); [reflexivity|exact Hcalls].
Defined.

(** ** Sharing *)

(** X12.  After any events, [shareResults] speaks of the response that
    arrived last: with no successful response so far, or when the last one
    carried an empty emotion, it only warns; otherwise the shared text names
    the emotion of that response, through [navigator.share] when the browser
    has it.  When it has not, the tweet window is opened with the escaped
    text and address, unless the emotion or the address of the page holds a
    lone surrogate: then [encodeURIComponent] throws, the [URIError] leaves
    the handler and no window is opened. *)
Theorem share_names_last_response evs w effs href canShare :
  run evs initial_world = Some (w, effs) →
  shareResults (globals w) href canShare
  = match last_resolved evs with
    | Some r =>
        let emo := emotion (res_data r) in
        if String.eqb emo "" then
          (None, [ToastWarn "Analyze an audio file first to share results"])
        else if canShare then
          (None,
           [NavigatorShare "My Speech Emotion Analysis" (share_text emo) href])
        else if has_lone_surrogate emo || has_lone_surrogate href then
          (Some "URI malformed", [])
        else
          (None,
           [WindowOpen ("https://twitter.com/intent/tweet?text="
                        +:+ percent_encode (share_text emo)
                        +:+ "&url=" +:+ percent_encode href) "_blank"])
    | None => (None, [ToastWarn "Analyze an audio file first to share results"])
    end.
Proof.
  intros Hr. destruct (run_current _ _ _ _ Hr) as (_ & Hd & _).
  unfold shareResults, encodeURIComponent. rewrite Hd.
  destruct (last_resolved evs) as [r|]; [|done].
  cbn. destruct (String.eqb (emotion (res_data r)) ""); [done|]. cbn.
  destruct canShare; [done|].
  rewrite share_text_surrogate.
  destruct (has_lone_surrogate (emotion (res_data r))); [done|].
  by destruct (has_lone_surrogate href).
Qed.

Lemma share_names_last_response_witness :
  shareResults (globals race_world) "https://example.org/" true
  = (None,
     [NavigatorShare "My Speech Emotion Analysis"
        "I just analyzed my speech emotion! The detected emotion is: happy. Try it yourself!"
        "https://example.org/"]).
Proof.
  apply (share_names_last_response race_trace race_world race_effects).
  vm_compute; reflexivity.
Defined.

(** A response whose emotion is a lone surrogate, shared where
    [navigator.share] is missing: the click ends in an exception and opens
    nothing. *)
Example lone_surrogate_stops_sharing :
  has_lone_surrogate lone_surrogate = true
  ∧ run [ FileChosen (choose happy_wav);
          FetchSettled 1
            (ok_with {| emotion := lone_surrogate; probs := Some [] |}) 4 ]
        initial_world = Some (garbled_world, garbled_effects)
  ∧ run [ShareClicked "https://example.org/" false] garbled_world
    = Some (garbled_world, [Uncaught "URI malformed"]).
Proof. split; [reflexivity|]. split; vm_compute; reflexivity. Qed.

Lemma unreserved_safe c : unreserved c = true → query_delimiter c = false.
Proof.
  destruct c as [[] [] [] [] [] [] [] []]; vm_compute; congruence.
Qed.

Lemma hex_digits_safe c :
  query_delimiter (hex_digit (nat_of_ascii c / 16)) = false
  ∧ query_delimiter (hex_digit (nat_of_ascii c mod 16)) = false.
Proof.
  destruct c as [[] [] [] [] [] [] [] []]; vm_compute; by split.
Qed.

Lemma percent_encode_safe s :
  Forall (λ c, query_delimiter c = false)
    (list_ascii_of_string (percent_encode s)).
Proof.
  induction s as [|c rest IH]; [constructor|]. cbn.
  destruct (unreserved c) eqn:Hc; cbn.
  - constructor; [by apply unreserved_safe|done].
  - destruct (hex_digits_safe c). by repeat constructor.
Qed.

(** X13.  When no [navigator.share] exists and an emotion is shown,
    [shareResults] does one of two things.  If the emotion or the address
    of the page holds a lone surrogate, [encodeURIComponent] throws a
    [URIError] and no address is opened.  In every other case the address
    opened is the tweet intent with exactly the two fields [text] and
    [url], and neither holds a character that ends or splits a query field,
    whatever else the emotion label and the page address contain. *)
Theorem tweet_fields_are_escaped s emo href :
  detectedEmotion s = Some emo → emo ≠ "" →
  if has_lone_surrogate emo || has_lone_surrogate href then
    shareResults s href false = (Some "URI malformed", [])
  else
    ∃ text url,
      shareResults s href false
      = (None,
         [WindowOpen ("https://twitter.com/intent/tweet?text=" +:+ text
                      +:+ "&url=" +:+ url) "_blank"])
      ∧ Forall (λ c, query_delimiter c = false) (list_ascii_of_string text)
      ∧ Forall (λ c, query_delimiter c = false) (list_ascii_of_string url).
Proof.
  intros Hd Hne%String.eqb_neq.
  unfold shareResults, encodeURIComponent, truthy. rewrite Hd, Hne. cbn.
  rewrite share_text_surrogate.
  destruct (has_lone_surrogate emo); [done|].
  destruct (has_lone_surrogate href); [done|]. cbn.
  eexists _, _. split; [reflexivity|].
  split; apply percent_encode_safe.
Qed.

Lemma tweet_fields_are_escaped_witness :
  ∃ text url,
    shareResults
      (set_detectedEmotion (Some "calm & happy") initial_globals)
      "https://example.org/?a=1" false
    = (None,
       [WindowOpen ("https://twitter.com/intent/tweet?text=" +:+ text
                    +:+ "&url=" +:+ url) "_blank"])
    ∧ Forall (λ c, query_delimiter c = false) (list_ascii_of_string text)
    ∧ Forall (λ c, query_delimiter c = false) (list_ascii_of_string url).
Proof.
  apply (tweet_fields_are_escaped
           (set_detectedEmotion (Some "calm & happy") initial_globals)
           "calm & happy" "https://example.org/?a=1").
  - reflexivity.
  - discriminate.
Defined.

(** The address built for an emotion and a page address that both hold
    delimiters, and what happens when the address of the page holds a lone
    surrogate. *)
Example tweet_address :
  shareResults
    (set_detectedEmotion (Some "calm & happy") initial_globals)
    "https://example.org/?a=1" false
  = (None,
     [WindowOpen
        "https://twitter.com/intent/tweet?text=I%20just%20analyzed%20my%20speech%20emotion!%20The%20detected%20emotion%20is%3A%20calm%20%26%20happy.%20Try%20it%20yourself!&url=https%3A%2F%2Fexample.org%2F%3Fa%3D1"
        "_blank"])
  ∧ shareResults
      (set_detectedEmotion (Some "calm") initial_globals)
      ("https://example.org/#" +:+ lone_surrogate) false
    = (Some "URI malformed", []).
Proof. split; vm_compute; reflexivity. Qed.

(** ** The visualizer's frame *)

Lemma draw_loop_lookup HEIGHT barWidth n data : ∀ steps i x k c cx cy cw ch,
  draw_loop HEIGHT barWidth n data steps i x !! k = Some (FillRect c cx cy cw ch) →
  let barHeight := (inject_Z (nth (i + k) data 0%Z) / 2)%Q in
  let ratio := (inject_Z (Z.of_nat (i + k)) / inject_Z (Z.of_nat n))%Q in
  k < steps
  ∧ c = ((barHeight + 25 * ratio)%Q, (250 * ratio)%Q, 50%Q)
  ∧ cy = (HEIGHT - barHeight)%Q ∧ cw = barWidth ∧ ch = barHeight
  ∧ (cx == x + inject_Z (Z.of_nat k) * (barWidth + 1))%Q.
Proof.
  induction steps as [|s IH]; intros i x k c cx cy cw ch; [done|].
  destruct k as [|k]; cbn [draw_loop lookup list_lookup].
  - intros [= <- <- <- <- <-]. rewrite Nat.add_0_r.
    repeat split; [lia|]. cbn. ring.
  - intros Hk. apply IH in Hk. cbn zeta in Hk.
    rewrite Nat.add_succ_comm in Hk.
    destruct Hk as (Hlt & -> & -> & -> & -> & Hx).
    repeat split; [lia|]. rewrite Hx, Nat2Z.inj_succ.
    unfold Z.succ. rewrite inject_Z_plus. ring.
Qed.

Lemma draw_loop_length HEIGHT barWidth n data : ∀ steps i x,
  length (draw_loop HEIGHT barWidth n data steps i x) = steps.
Proof.
  induction steps as [|s IH]; intros i x; [done|]. cbn. by rewrite IH.
Qed.

Lemma byte_nth data i : bytes data → (0 ≤ nth i data 0 ≤ 255)%Z.
Proof.
  intros Hb. destruct (nth_in_or_default i data 0%Z) as [Hin| ->]; [|lia].
  unfold bytes in Hb. rewrite Forall_forall in Hb.
  by apply Hb, list_elem_of_In.
Qed.

Lemma draw_loop_bar HEIGHT barWidth n data : ∀ steps i x k,
  k < steps →
  ∃ c cx cy cw ch,
    draw_loop HEIGHT barWidth n data steps i x !! k
    = Some (FillRect c cx cy cw ch).
Proof.
  induction steps as [|s IH]; intros i x k Hk; [lia|].
  destruct k as [|k]; cbn [draw_loop lookup list_lookup].
  - by eexists _, _, _, _, _.
  - apply IH. lia.
Qed.

(** X14.  One frame of the visualizer, for the analyser's 128 bins, is 130
    calls: the frame asks for the next one, blackens the whole canvas and
    then draws 128 bars, one for each bin.  Bar [k] is half as high as byte
    [k], so at most 127.5 pixels, and stands on the bottom edge; all bars
    have the width 5/256 of the canvas and bar [k] starts at [k] times that
    width plus one; its red and green components stay below 153 and 250 and
    its blue is 50. *)
Theorem frame_geometry WIDTH HEIGHT data :
  length data = 128 → bytes data →
  length (draw WIDTH HEIGHT data) = 130
  ∧ draw WIDTH HEIGHT data !! 0 = Some RequestFrame
  ∧ draw WIDTH HEIGHT data !! 1
    = Some (FillRect (0, 0, 0)%Q 0%Q 0%Q (inject_Z WIDTH) (inject_Z HEIGHT))
  ∧ ∀ k, k < 128 →
      ∃ r g b x y w h,
        draw WIDTH HEIGHT data !! (2 + k) = Some (FillRect (r, g, b) x y w h)
        ∧ (h == inject_Z (nth k data 0%Z) / 2 ∧ 0 <= h ∧ h <= 255 / 2
           ∧ y + h == inject_Z HEIGHT
           ∧ w == (5 # 256) * inject_Z WIDTH
           ∧ x == inject_Z (Z.of_nat k) * (w + 1)
           ∧ 0 <= r ∧ r < 153 ∧ 0 <= g ∧ g < 250 ∧ b == 50)%Q.
Proof.
  intros Hlen Hbytes. unfold draw. rewrite Hlen.
  split. { cbn [length]. by rewrite draw_loop_length. }
  split; [done|]. split; [done|].
  intros k Hlt. cbn [lookup list_lookup Nat.add].
  destruct (draw_loop_bar (inject_Z HEIGHT)
              (inject_Z WIDTH / inject_Z (Z.of_nat 128) * (5 # 2))%Q
              128 data 128 0 0%Q k Hlt) as (c & x & y & w & h & Hk).
  pose proof Hk as Hbar.
  apply draw_loop_lookup in Hk. cbn zeta in Hk. rewrite Nat.add_0_l in Hk.
  destruct Hk as (_ & -> & -> & -> & -> & Hx).
  eexists _, _, _, _, _, _, _. split; [exact Hbar|].
  pose proof (byte_nth data k Hbytes) as [Hlo Hhi].
  rewrite Zle_Qle in Hlo, Hhi.
  assert (0 <= inject_Z (Z.of_nat k) ∧ inject_Z (Z.of_nat k) <= 127)%Q as [Hk0 Hk1].
  { split; [change 0%Q with (inject_Z 0)|change 127%Q with (inject_Z 127)];
      rewrite <- Zle_Qle; lia. }
  change (inject_Z (Z.of_nat 128)) with 128%Q in *.
  change (inject_Z 0) with 0%Q in *. change (inject_Z 255) with 255%Q in *.
  repeat split; try first [lra | field | rewrite Hx; ring].
  all: unfold Qdiv; change (/ 2)%Q with (1 # 2)%Q;
    change (/ 128)%Q with (1 # 128)%Q; lra.
Qed.

(** Bar 3 of the loud frame on a canvas 300 wide and 150 high. *)
Lemma frame_geometry_witness :
  length (draw 300 150 loud) = 130
  ∧ draw 300 150 loud !! 0 = Some RequestFrame
  ∧ ∃ r g b x y w h,
      draw 300 150 loud !! 5 = Some (FillRect (r, g, b) x y w h)
      ∧ (h == 255 / 2 ∧ y + h == 150 ∧ w == (5 # 256) * 300
         ∧ x == 3 * (w + 1))%Q.
Proof.
  destruct (frame_geometry 300 150 loud) as (Hlen & Hfirst & _ & Hbars).
  - reflexivity.
  - apply Forall_forall. intros d Hd%list_elem_of_In%repeat_spec. lia.
  - split; [exact Hlen|]. split; [exact Hfirst|].
    destruct (Hbars 3) as (r & g & b & x & y & w & h & Hbar & Hh & _ & _ & Hy
                           & Hw & Hx & _); [lia|].
    exists r, g, b, x, y, w, h.
    split; [exact Hbar|]. split; [exact Hh|]. split; [exact Hy|].
    split; [exact Hw|exact Hx].
Defined.

(** X15.  The bars do not fit the canvas: a bar is 5/256 of the width wide
    and bars are one pixel apart, so from bar 52 on every bar starts at or
    beyond the right edge, whatever the width of the canvas and whatever the
    sound.  Of the 128 frequency bins at most the first 52 can be seen. *)
Theorem bars_beyond_the_canvas WIDTH HEIGHT data k c x y w h :
  length data = 128 → (0 ≤ WIDTH)%Z → 52 ≤ k →
  draw WIDTH HEIGHT data !! (2 + k) = Some (FillRect c x y w h) →
  (inject_Z WIDTH <= x)%Q.
Proof.
  intros Hlen Hw Hk Hbar. unfold draw in Hbar. rewrite Hlen in Hbar.
  cbn [lookup list_lookup Nat.add] in Hbar.
  apply draw_loop_lookup in Hbar. cbn zeta in Hbar.
  destruct Hbar as (Hlt & _ & _ & _ & _ & Hx).
  change (inject_Z (Z.of_nat 128)) with 128%Q in Hx.
  assert (52 <= inject_Z (Z.of_nat k))%Q as Hk52.
  { change 52%Q with (inject_Z 52). rewrite <- Zle_Qle. lia. }
  assert (0 <= inject_Z WIDTH)%Q as Hw0.
  { change 0%Q with (inject_Z 0). by rewrite <- Zle_Qle. }
  assert (52 * inject_Z WIDTH <= inject_Z (Z.of_nat k) * inject_Z WIDTH)%Q
    as Hprod by (by apply Qmult_le_compat_r).
  rewrite Hx. unfold Qdiv. change (/ 128)%Q with (1 # 128)%Q.
  assert
    (0 + inject_Z (Z.of_nat k) * (inject_Z WIDTH * (1 # 128) * (5 # 2) + 1)
     == (5 # 256) * (inject_Z (Z.of_nat k) * inject_Z WIDTH)
        + inject_Z (Z.of_nat k))%Q as -> by ring.
  lra.
Qed.

Lemma bars_beyond_the_canvas_witness :
  match loud_bar_52 with
  | Some (FillRect _ x _ _ _) => (300 <= x)%Q
  | _ => False
  end.
Proof.
  unfold loud_bar_52.
  eapply (bars_beyond_the_canvas 300 150 loud 52).
  - reflexivity.
  - lia.
  - lia.
  - vm_compute. reflexivity.
Defined.

(** ** Loading the script *)

(** X16.  Loading the script runs to its last line exactly when the page has
    the six elements it attaches to, the stored high scores can be read, and
    other scripts of the page define [handleDragOver] and [handleDrop], two
    functions the script uses and does not declare.  Then, and only then,
    its nine listeners are registered, the [DOMContentLoaded] one last. *)
Theorem load_completes_iff page :
  ((load_script page []).1 = None ↔ page_complete page = true)
  ∧ (length (load_script page []).2 = 9 ↔ page_complete page = true)
  ∧ (page_complete page = true →
     last (load_script page []).2
     = Some {| listens_on := "document"; listens_for := "DOMContentLoaded";
               handler_name := "init" |}).
Proof.
  unfold load_script, page_complete, on_element, on_document,
    addEventListener, read_highScores.
  cbn [in_order forallb].
  destruct (highScores_readable page); cbn; [|by intuition].
  page_cases page; cbn; by intuition.
Qed.

Lemma load_completes_iff_witness :
  (load_script full_page []).1 = None
  ∧ length (load_script full_page []).2 = 9.
Proof.
  destruct (load_completes_iff full_page) as (Hnone & Hnine & _).
  split; [apply Hnone|apply Hnine]; reflexivity.
Defined.

(** X17.  In a page that does not define [handleDragOver] the script stops
    at line 41 at the latest: it throws, and the only listener it may have
    registered is the one for the file input.  The buttons for play and
    pause, volume, mute, real-time mode and sharing get no listener, and
    [init] is never scheduled. *)
Theorem without_drag_handler_only_upload_listens page :
  mem "handleDragOver" (page_functions page) = false →
  is_Some (startup page).1
  ∧ (startup page).2 = (load_script page []).2
  ∧ ((startup page).2 = [] ∨ (startup page).2 = [change_listener]).
Proof.
  intros Hdrag.
  unfold startup, load_script, on_element, on_document, addEventListener,
    read_highScores.
  cbn [in_order]. rewrite Hdrag.
  destruct (highScores_readable page); cbn; [|by eauto].
  destruct (mem "fileInput" (element_ids page)); cbn; by eauto.
Qed.

Lemma without_drag_handler_only_upload_listens_witness :
  is_Some (startup bare_page).1
  ∧ (startup bare_page).2 = (load_script bare_page []).2
  ∧ ((startup bare_page).2 = [] ∨ (startup bare_page).2 = [change_listener]).
Proof.
  apply (without_drag_handler_only_upload_listens bare_page). reflexivity.
Defined.

(** The page of the script alone: the file input listens, nothing else. *)
Example bare_page_startup :
  startup bare_page
  = (Some "ReferenceError: handleDragOver is not defined", [change_listener]).
Proof. reflexivity. Qed.

(** X18.  When the script has loaded to its end, [init] completes exactly
    when the page has an element of class [drop-zone] and a tour button and
    the [Toastify] the bundle imports has an [init] that returns.  Its
    three listeners are registered, so that the whole start-up leaves
    twelve, exactly when the page has the drop zone and the tour button.
    Without a drop zone [init] throws at its first listener and the tour
    button gets none; with a drop zone and no tour button it stops after
    the two listeners of the drop zone. *)
Theorem init_completes_iff page :
  page_complete page = true →
  ((startup page).1 = None
   ↔ has_drop_zone page = true ∧ mem "tourButton" (element_ids page) = true
     ∧ toastify_inits page = true)
  ∧ (length (startup page).2 = 12
     ↔ has_drop_zone page = true ∧ mem "tourButton" (element_ids page) = true)
  ∧ (has_drop_zone page = false → length (startup page).2 = 9)
  ∧ (has_drop_zone page = true → mem "tourButton" (element_ids page) = false →
     length (startup page).2 = 11).
Proof.
  unfold startup, init, load_script, page_complete, on_element, on_document,
    addEventListener, read_highScores, toastify_init.
  cbn [in_order forallb].
  destruct (highScores_readable page); cbn; [|done].
  page_cases page; cbn; try done.
  all: intros _; destruct (has_drop_zone page), (toastify_inits page); cbn.
  all: repeat split; try done; try (by intros (? & ? & ?)); by intros [? ?].
Qed.

Lemma init_completes_iff_witness :
  (startup full_page).1 = None ∧ length (startup full_page).2 = 12.
Proof.
  destruct (init_completes_iff full_page) as (Hiff & Hlen & _).
  - reflexivity.
  - split; [by apply Hiff|by apply Hlen].
Defined.

(** A page that has everything, with a [Toastify] that has no [init]: all
    twelve listeners are registered and [init] ends in an exception. *)
Example init_without_toastify_init :
  startup no_toastify_page
  = (Some "TypeError: Toastify.init is not a function",
     (startup full_page).2)
  ∧ length (startup no_toastify_page).2 = 12.
Proof. by split. Qed.
